(** * budbee-js: the authenticated request layer and the endpoint methods

    A shallow embedding of [src/rest.ts] (class [RESTClient]) and
    [src/index.ts] (class [Client]), and the properties of the request each
    method builds and of the value it hands back.

    Conventions of the embedding:
    - a JavaScript string is a [string] holding its bytes in UTF-8, an
      unpaired surrogate written like any other code point (three bytes
      from ED A0 80 to ED BF BF), so that every string has its bytes;
      where the source joins two strings an ASCII character stands at the
      joint, and the bytes of the result are the bytes of the parts;
    - a [Record<string, string>] is an association list in property order,
      a [Headers] object a [gmap] from the names it stores to their values;
    - a JSON-like object is an association list in property order, because
      [JSON.stringify] walks the properties in that order;
    - a promise is represented by the way it settles ([Resolved] or
      [Rejected]); a synchronous [throw] is a [Throw] completion;
    - the network is explicit state: the list of [fetch] calls made so far.
      What the platform answers ([fetch], [JSON.parse], [JSON.stringify],
      the local time zone) is a [Platform] record every definition takes. *)

From Stdlib Require Import ZArith QArith.
From stdpp Require Import gmap strings list fin_maps pretty.

Set Warnings "-register-all".
Local Open Scope Z_scope.

(** ** JavaScript values *)

Inductive JsValue : Type :=
  | JUndefined
  | JNull
  | JBool (b : bool)
  | JNumber (q : Q)
  | JString (s : string)
  | JArray (items : list JsValue)
  | JObject (props : list (string * JsValue)).

(** The own properties of an object, in enumeration order. *)
Abbreviation JsObject := (list (string * JsValue)).

(** [o[k]] on own properties. *)
Fixpoint obj_get (k : string) (o : JsObject) : option JsValue :=
  match o with
  | [] => None
  | (k', v) :: rest => if decide (k' = k) then Some v else obj_get k rest
  end.

(** [o[k] = v]: an existing property keeps its place, a new one is added
    last. *)
Fixpoint obj_set (k : string) (v : JsValue) (o : JsObject) : JsObject :=
  match o with
  | [] => [(k, v)]
  | (k', v') :: rest =>
      if decide (k' = k) then (k', v) :: rest else (k', v') :: obj_set k v rest
  end.

(** The object literal [{...src, <later properties>}] starts as a copy of
    the own properties of [src]; [obj_spread src target] is
    [{...target, ...src}]. *)
Definition obj_spread (src target : JsObject) : JsObject :=
  foldl (fun acc kv => obj_set kv.1 kv.2 acc) target src.

(** What can be thrown, or be the reason a promise rejects with. The request
    layer throws the response itself; everything else is an error object of
    the platform, kept by its name. *)
Inductive Response : Type :=
  mkResponse { status : Z; body_text : string }.

Inductive Thrown : Type :=
  | ThrownResponse (res : Response)
  | ThrownError (name : string).

Inductive Promise (A : Type) : Type :=
  | Resolved (a : A)
  | Rejected (reason : Thrown).
Arguments Resolved {A} a.
Arguments Rejected {A} reason.

(** [p.then(f)]: [f] runs on the fulfilment value; what it returns (or
    throws) settles the new promise; a rejection passes through. *)
Definition then_ {A B : Type} (p : Promise A) (f : A -> Promise B) : Promise B :=
  match p with
  | Resolved a => f a
  | Rejected reason => Rejected reason
  end.

(** The outcome of evaluating an expression that may throw. *)
Inductive Completion (A : Type) : Type :=
  | Normal (a : A)
  | Throw (reason : Thrown).
Arguments Normal {A} a.
Arguments Throw {A} reason.

(** Property read [v.k] on a value that came out of [JSON.parse], for a key
    that no built-in prototype defines ([lockers], [url]): [null] and
    [undefined] have no properties, an object answers with its own
    property, anything else with [undefined]. *)
Definition js_get (k : string) (v : JsValue) : Promise JsValue :=
  match v with
  | JNull | JUndefined => Rejected (ThrownError "TypeError")
  | JObject o => Resolved (default JUndefined (obj_get k o))
  | _ => Resolved JUndefined
  end.

(** Truthiness of an optional boolean ([test?: boolean]). *)
Definition truthy (b : option bool) : bool := default false b.

(** ** Numbers

    A JavaScript number is a double. The integers up to
    [Number.MAX_SAFE_INTEGER] in size are kept by their value: these a
    double holds exactly and [Number::toString] prints in plain decimal.
    Every other double (a fraction, an integer beyond that range, NaN, an
    infinity) is kept by the text [Number::toString] gives it, which tells
    such doubles apart: [1e+21], [1152921504606847000], [0.5], [NaN]. *)

Definition MAX_SAFE_INTEGER : Z := 9007199254740991.

Inductive JsNumber : Type :=
  | SafeInteger (n : Z) (safe : Is_true (Z.abs n <=? MAX_SAFE_INTEGER))
  | OtherNumber (printed : string).

(** A number put into a template literal or added to a string. *)
Definition Number_toString (x : JsNumber) : string :=
  match x with
  | SafeInteger n _ => pretty n
  | OtherNumber printed => printed
  end.

(** ** Records of strings ([Record<string, string>]) *)

Module StringRecord.

Abbreviation t := (list (string * string)).

Fixpoint get (k : string) (o : t) : option string :=
  match o with
  | [] => None
  | (k', v) :: rest => if decide (k' = k) then Some v else get k rest
  end.

(** [o[k] = v] *)
Fixpoint set (k v : string) (o : t) : t :=
  match o with
  | [] => [(k, v)]
  | (k', v') :: rest =>
      if decide (k' = k) then (k', v) :: rest else (k', v') :: set k v rest
  end.

(** [{...target, ...src}] *)
Definition spread (src target : t) : t :=
  foldl (fun acc kv => set kv.1 kv.2 acc) target src.

End StringRecord.

(** Every character of a string passes a test. *)
Fixpoint string_forall (p : Ascii.ascii -> bool) (s : string) : bool :=
  match s with
  | EmptyString => true
  | String c rest => p c && string_forall p rest
  end.

(** ** [Buffer.from(s).toString("base64")] (RFC 4648, with padding) *)

Module Base64.

Definition alphabet : list Ascii.ascii :=
  String.list_ascii_of_string
    "ABCDEFGHIJKLMNOPQRSTUVWXYZabcdefghijklmnopqrstuvwxyz0123456789+/".

Definition sextet (n : N) : Ascii.ascii :=
  nth (N.to_nat n) alphabet (Ascii.ascii_of_N 61).

Fixpoint encode_bytes (bs : list N) : string :=
  match bs with
  | [] => ""
  | [a] =>
      String (sextet (N.shiftr a 2))
        (String (sextet (N.shiftl (N.land a 3) 4)) "==")
  | [a; b] =>
      String (sextet (N.shiftr a 2))
        (String (sextet (N.lor (N.shiftl (N.land a 3) 4) (N.shiftr b 4)))
           (String (sextet (N.shiftl (N.land b 15) 2)) "="))
  | a :: b :: c :: rest =>
      String (sextet (N.shiftr a 2))
        (String (sextet (N.lor (N.shiftl (N.land a 3) 4) (N.shiftr b 4)))
           (String (sextet (N.lor (N.shiftl (N.land b 15) 2) (N.shiftr c 6)))
              (String (sextet (N.land c 63)) (encode_bytes rest))))
  end.

Definition encode (s : string) : string :=
  encode_bytes (map Ascii.N_of_ascii (String.list_ascii_of_string s)).

End Base64.

(** [Buffer.from(s)] writes the string in UTF-8, and an unpaired surrogate
    has no UTF-8: the three bytes that stand for one in a string become the
    three bytes EF BF BD of the replacement character. *)
Fixpoint Buffer_from (s : string) : string :=
  match s with
  | EmptyString => EmptyString
  | String a tl =>
      match tl with
      | String b (String c rest) =>
          if (Ascii.N_of_ascii a =? 237)%N
             && (160 <=? Ascii.N_of_ascii b)%N && (Ascii.N_of_ascii b <=? 191)%N
             && (128 <=? Ascii.N_of_ascii c)%N && (Ascii.N_of_ascii c <=? 191)%N
          then String (Ascii.ascii_of_N 239)
                 (String (Ascii.ascii_of_N 191)
                    (String (Ascii.ascii_of_N 189) (Buffer_from rest)))
          else String a (Buffer_from tl)
      | _ => String a (Buffer_from tl)
      end
  end.

(** ** [Date] and [new Intl.DateTimeFormat("sv-SE")]

    A [Date] holds a time value, milliseconds since the epoch in UTC, or is
    invalid. The formatter of the source has a locale and no options: it
    prints the calendar day of the time value in the time zone of the
    platform, in the Swedish numeric pattern year-month-day with month and
    day on two digits, in the proleptic Gregorian calendar, and it throws a
    [RangeError] on an invalid date. *)

Inductive Date : Type :=
  | TimeValue (t : Z)
  | InvalidDate.

Module Intl.

Record CivilDate : Type := mkCivil { year : Z; month : Z; day : Z }.

Definition msPerDay : Z := 86400000.

(** Day number of a time value (ECMAScript [Day(t)], a floor). *)
Definition Day (t : Z) : Z := t / msPerDay.

(** Calendar date of a day number counted from 1970-01-01, by 400-year
    eras that start on 1 March. *)
Definition civil_from_days (z : Z) : CivilDate :=
  let z := z + 719468 in
  let era := z / 146097 in
  let doe := z - era * 146097 in
  let yoe := (doe - doe / 1460 + doe / 36524 - doe / 146096) / 365 in
  let y := yoe + era * 400 in
  let doy := doe - (365 * yoe + yoe / 4 - yoe / 100) in
  let mp := (5 * doy + 2) / 153 in
  let d := doy - (153 * mp + 2) / 5 + 1 in
  let m := if mp <? 10 then mp + 3 else mp - 9 in
  mkCivil (if m <=? 2 then y + 1 else y) m d.

Definition pad2 (n : Z) : string :=
  if n <? 10 then "0" +:+ pretty n else pretty n.

(** The year field is the year of the era: year 0 and before count
    backwards from 1. *)
Definition year_of_era (y : Z) : Z := if y <=? 0 then 1 - y else y.

Definition format_civil (c : CivilDate) : string :=
  pretty (year_of_era (year c)) +:+ "-" +:+ pad2 (month c)
    +:+ "-" +:+ pad2 (day c).

(** [dateFmt.format(d)], with [tza t] the offset of local time from UTC
    at time [t], in milliseconds. *)
Definition format (tza : Z -> Z) (d : Date) : Completion string :=
  match d with
  | InvalidDate => Throw (ThrownError "RangeError")
  | TimeValue t => Normal (format_civil (civil_from_days (Day (t + tza t))))
  end.

End Intl.

(** ** The platform and the network *)

Record AbortSignal : Type := mkSignal { signal_id : nat; aborted : bool }.

(** The second argument of [fetch]. *)
Module RequestInit.
Record t : Type := mk {
  body : option string;
  headers : gmap string string;
  method : string;
  signal : option AbortSignal;
}.
End RequestInit.

(** One call [fetch(url, init)]. *)
Record FetchCall : Type := mkFetchCall {
  fetch_url : string;
  fetch_init : RequestInit.t;
}.

(** The calls made so far, oldest first. *)
Abbreviation Net := (list FetchCall).

Record Platform : Type := mkPlatform {
  (** how the promise of a [fetch] settles, given the calls before it *)
  fetch_settles : Net -> FetchCall -> Promise Response;
  JSON_stringify : JsValue -> string;
  (** [None] when the text is not JSON ([SyntaxError]) *)
  JSON_parse : string -> option JsValue;
  (** offset of local time from UTC, in milliseconds *)
  LocalTZA : Z -> Z;
}.

(** Code that talks to the network: a state transformer on the call log. *)
Definition IO (A : Type) : Type := Net -> A * Net.

#[global] Instance IO_ret : MRet IO := fun A a net => (a, net).
#[global] Instance IO_bind : MBind IO :=
  fun A B f m net => let '(a, net') := m net in f a net'.

Definition fetch (pf : Platform) (url : string) (init : RequestInit.t)
    : IO (Promise Response) :=
  fun net =>
    let call := mkFetchCall url init in
    (fetch_settles pf net call, net ++ [call]).

(** ** [Headers]

    [new Headers(record)] appends the entries of the record one by one. A
    value loses its leading and trailing HTTP whitespace; a name that is
    not a token, or a value that holds NUL, CR, LF or a character above
    U+00FF, is refused with a [TypeError]. Names are compared without
    regard to the case of ASCII letters: a name already there keeps the
    spelling it came with first, and the new value is joined to its value
    with a comma and a space. *)

Module Headers.

Definition tchar (c : Ascii.ascii) : bool :=
  let n := Ascii.N_of_ascii c in
  ((48 <=? n) && (n <=? 57) || (65 <=? n) && (n <=? 90)
   || (97 <=? n) && (n <=? 122)
   || bool_decide (n ∈ [33; 35; 36; 37; 38; 39; 42; 43; 45; 46; 94; 95; 96;
                        124; 126]))%N.

Definition valid_name (name : string) : bool :=
  negb (String.eqb name "") && string_forall tchar name.

Definition whitespace (c : Ascii.ascii) : bool :=
  bool_decide (Ascii.N_of_ascii c ∈ [9; 10; 13; 32]%N).

Fixpoint strip_leading (s : string) : string :=
  match s with
  | EmptyString => EmptyString
  | String c rest => if whitespace c then strip_leading rest else s
  end.

Fixpoint strip_trailing (s : string) : string :=
  match s with
  | EmptyString => EmptyString
  | String c rest =>
      match strip_trailing rest with
      | EmptyString => if whitespace c then EmptyString else String c EmptyString
      | kept => String c kept
      end
  end.

Definition normalize (value : string) : string :=
  strip_trailing (strip_leading value).

(** A byte of a value that passes: not NUL, LF or CR, and not the lead
    byte of a character above U+00FF (C4 and up). *)
Definition value_byte (c : Ascii.ascii) : bool :=
  let n := Ascii.N_of_ascii c in
  (negb (n =? 0) && negb (n =? 10) && negb (n =? 13) && (n <? 196))%N.

Definition valid_value (value : string) : bool := string_forall value_byte value.

Definition lower (c : Ascii.ascii) : Ascii.ascii :=
  let n := Ascii.N_of_ascii c in
  if ((65 <=? n) && (n <=? 90))%N then Ascii.ascii_of_N (n + 32) else c.

Fixpoint lowercase (s : string) : string :=
  match s with
  | EmptyString => EmptyString
  | String c rest => String (lower c) (lowercase rest)
  end.

Definition same_name (a b : string) : bool :=
  String.eqb (lowercase a) (lowercase b).

(** The header list with one more value for a name. *)
Fixpoint combine (name value : string) (hl : list (string * string))
    : list (string * string) :=
  match hl with
  | [] => [(name, value)]
  | (n, v) :: rest =>
      if same_name n name
      then (n, v +:+ ", " +:+ value) :: rest
      else (n, v) :: combine name value rest
  end.

(** [headers.append(name, value)] *)
Definition append (name value : string) (hl : list (string * string))
    : Completion (list (string * string)) :=
  let value := normalize value in
  if valid_name name && valid_value value
  then Normal (combine name value hl)
  else Throw (ThrownError "TypeError").

Fixpoint fill (record : StringRecord.t) (hl : list (string * string))
    : Completion (list (string * string)) :=
  match record with
  | [] => Normal hl
  | (name, value) :: rest =>
      match append name value hl with
      | Throw e => Throw e
      | Normal hl' => fill rest hl'
      end
  end.

End Headers.

Definition Headers_new (record : StringRecord.t)
    : Completion (gmap string string) :=
  match Headers.fill record [] with
  | Throw e => Throw e
  | Normal hl => Normal (list_to_map hl)
  end.

(** [res.json()]. *)
Definition Response_json (pf : Platform) (res : Response) : Promise JsValue :=
  match JSON_parse pf (body_text res) with
  | Some v => Resolved v
  | None => Rejected (ThrownError "SyntaxError")
  end.

(** ** [src/types.ts] and [src/rest.ts] *)

Module Config.
Record t : Type := mk {
  key : string;
  secret : string;
  test : option bool;
}.
End Config.

Module RequestData.
Record t : Type := mk {
  auth : option bool;
  body : option string;
  headers : option StringRecord.t;
  method : string;
  path : string;
  signal : option AbortSignal;
}.

(** [Omit<RequestData, "method">] *)
Record omit_method : Type := mkOmit {
  o_auth : option bool;
  o_body : option string;
  o_headers : option StringRecord.t;
  o_path : string;
  o_signal : option AbortSignal;
}.

(** [{method: m, ...req}] *)
Definition with_method (m : string) (req : omit_method) : t :=
  mk (o_auth req) (o_body req) (o_headers req) m (o_path req) (o_signal req).
End RequestData.

Module RESTClient.

(** The two fields are private and read-only, and only the constructor
    writes them: [auth] never holds anything but the token the constructor
    computed from [config]. *)
Record t : Type := mk {
  config : Config.t;
  auth : string;
  auth_built :
    auth = Base64.encode
             (Buffer_from (Config.key config +:+ ":" +:+ Config.secret config));
}.

(** [constructor(config)] *)
Definition new (config : Config.t) : t :=
  mk config
    (Base64.encode
       (Buffer_from (Config.key config +:+ ":" +:+ Config.secret config)))
    eq_refl.

(** The object literal [{Authorization: ..., ...req.headers}]: the entries
    of [req.headers] are written, key by key, over the record that holds
    the authorization entry. (An object lists its integer-like keys first;
    [Headers] does not depend on the place of a name that no other name
    equals up to case, and such a key equals no other.) *)
Definition header_record (this : t) (hs : option StringRecord.t)
    : StringRecord.t :=
  StringRecord.spread (default [] hs)
    [("Authorization", "Basic " +:+ auth this)].

(** An [async] method: the [TypeError] of [new Headers] rejects the promise
    it returns, before [fetch] is called. *)
Definition request (pf : Platform) (this : t) (req : RequestData.t)
    : IO (Promise Response) :=
  let url :=
    if truthy (Config.test (config this))
    then "https://api.staging.budbee.com"
    else "https://api.budbee.com" in
  match Headers_new (header_record this (RequestData.headers req)) with
  | Throw e => mret (Rejected e)
  | Normal headers =>
      p ← fetch pf (url +:+ "/" +:+ RequestData.path req)
            (RequestInit.mk (RequestData.body req) headers
               (RequestData.method req) (RequestData.signal req));
      mret (then_ p (fun res =>
        if (status res <? 200) || (status res >? 399)
        then Rejected (ThrownResponse res)
        else Resolved res))
  end.

Definition delete (pf : Platform) (this : t) (req : RequestData.omit_method) :=
  request pf this (RequestData.with_method "DELETE" req).

Definition get (pf : Platform) (this : t) (req : RequestData.omit_method) :=
  request pf this (RequestData.with_method "GET" req).

Definition post (pf : Platform) (this : t) (req : RequestData.omit_method) :=
  request pf this (RequestData.with_method "POST" req).

Definition put (pf : Platform) (this : t) (req : RequestData.omit_method) :=
  request pf this (RequestData.with_method "PUT" req).

End RESTClient.

(** ** [src/index.ts] *)

(** [string | number], and its value in a template literal. *)
Inductive StringOrNumber : Type :=
  | Str (s : string)
  | Num (n : JsNumber).

Definition interpolate (v : StringOrNumber) : string :=
  match v with
  | Str s => s
  | Num n => Number_toString n
  end.

Record BetweenDates : Type := mkBetween { from : Date; to : Date }.

(** [number | BetweenDates] *)
Inductive IntervalArg : Type :=
  | Days (n : JsNumber)
  | Between (dates : BetweenDates).

(** [string | undefined | null] *)
Inductive LockerId : Type :=
  | LockerIdString (s : string)
  | LockerIdUndefined
  | LockerIdNull.

Definition LockerId_value (l : LockerId) : JsValue :=
  match l with
  | LockerIdString s => JString s
  | LockerIdUndefined => JUndefined
  | LockerIdNull => JNull
  end.

Module Client.

(** [Client extends RESTClient] and adds no field. *)
Abbreviation t := RESTClient.t.

Definition warehouses (pf : Platform) (this : t) : IO (Promise JsValue) :=
  p ← RESTClient.get pf this
        {| RequestData.o_auth := None;
           RequestData.o_body := None;
           RequestData.o_headers :=
             Some [("Content-Type", "application/vnd.budbee.users-v1+json")];
           RequestData.o_path := "users/collection-points";
           RequestData.o_signal := None |};
  mret (then_ p (Response_json pf)).

Definition warehouseInRegion (pf : Platform) (this : t)
    (postalCode : StringOrNumber) (countryCode : option string)
    : IO (Promise JsValue) :=
  let countryCode := default "SE" countryCode in
  p ← RESTClient.get pf this
        {| RequestData.o_auth := None;
           RequestData.o_body := None;
           RequestData.o_headers :=
             Some [("Content-Type",
                       "application/vnd.budbee.postalcodes-v2+json")];
           RequestData.o_path :=
             "postalcodes/validate/" +:+ countryCode +:+ "/"
               +:+ interpolate postalCode;
           RequestData.o_signal := None |};
  mret (then_ p (Response_json pf)).

Definition postalCodes (pf : Platform) (this : t)
    (countryCode : option string) : IO (Promise JsValue) :=
  let countryCode := default "SE" countryCode in
  p ← RESTClient.get pf this
        {| RequestData.o_auth := None;
           RequestData.o_body := None;
           RequestData.o_headers :=
             Some [("Content-Type",
                       "application/vnd.budbee.postalcodes-v1+json")];
           RequestData.o_path := "postalcodes/" +:+ countryCode;
           RequestData.o_signal := None |};
  mret (then_ p (Response_json pf)).

(** The last segment of the path of [deliveryWindows]: the number, or
    [[dateFmt.format(from), dateFmt.format(to)].join("/")]. *)
Definition interval_segment (pf : Platform) (interval : IntervalArg)
    : Completion string :=
  match interval with
  | Days n => Normal (Number_toString n)
  | Between dates =>
      match Intl.format (LocalTZA pf) (from dates) with
      | Throw e => Throw e
      | Normal a =>
          match Intl.format (LocalTZA pf) (to dates) with
          | Throw e => Throw e
          | Normal b => Normal (a +:+ "/" +:+ b)
          end
      end
  end.

(** Not an [async] method: a formatter that throws makes the call itself
    throw, before any request is built. *)
Definition deliveryWindows (pf : Platform) (this : t)
    (postalCode : StringOrNumber) (interval : IntervalArg)
    (countryCode : option string) : IO (Completion (Promise JsValue)) :=
  let countryCode := default "SE" countryCode in
  match interval_segment pf interval with
  | Throw e => mret (Throw e)
  | Normal segment =>
      p ← RESTClient.get pf this
            {| RequestData.o_auth := None;
               RequestData.o_body := None;
               RequestData.o_headers :=
                 Some [("Content-Type",
                           "application/vnd.budbee.intervals-v2+json")];
               RequestData.o_path :=
                 "intervals/" +:+ countryCode +:+ "/"
                   +:+ interpolate postalCode +:+ "/" +:+ segment;
               RequestData.o_signal := None |};
      mret (Normal (then_ p (Response_json pf)))
  end.

Definition order (pf : Platform) (this : t) (orderId : string)
    : IO (Promise JsValue) :=
  p ← RESTClient.get pf this
        {| RequestData.o_auth := None;
           RequestData.o_body := None;
           RequestData.o_headers :=
             Some [("Content-Type",
                       "application/vnd.budbee.multiple.orders-v1+json")];
           RequestData.o_path := "multiple/orders/" +:+ orderId;
           RequestData.o_signal := None |};
  mret (then_ p (Response_json pf)).

Definition createOrder (pf : Platform) (this : t) (order : JsObject)
    : IO (Promise JsValue) :=
  p ← RESTClient.post pf this
        {| RequestData.o_auth := None;
           RequestData.o_body := Some (JSON_stringify pf (JObject order));
           RequestData.o_headers :=
             Some [("Content-Type",
                       "application/vnd.budbee.multiple.orders-v2+json")];
           RequestData.o_path := "multiple/orders";
           RequestData.o_signal := None |};
  mret (then_ p (Response_json pf)).

Definition updateDeliveryConsumerInfo (pf : Platform) (this : t)
    (orderId : string) (info : JsObject) : IO (Promise JsValue) :=
  p ← RESTClient.put pf this
        {| RequestData.o_auth := None;
           RequestData.o_body := Some (JSON_stringify pf (JObject info));
           RequestData.o_headers :=
             Some [("Content-Type",
                       "application/vnd.budbee.multiple.orders-v1+json")];
           RequestData.o_path := "multiple/orders/" +:+ orderId;
           RequestData.o_signal := None |};
  mret (then_ p (Response_json pf)).

Definition cancelOrder (pf : Platform) (this : t) (orderId : string)
    : IO (Promise Response) :=
  RESTClient.delete pf this
    {| RequestData.o_auth := None;
       RequestData.o_body := None;
       RequestData.o_headers :=
         Some [("Content-Type",
                   "application/vnd.budbee.multiple.orders-v1+json")];
       RequestData.o_path := "multiple/orders/" +:+ orderId;
       RequestData.o_signal := None |}.

Definition addParcels (pf : Platform) (this : t) (orderId : string)
    (parcels : list JsObject) : IO (Promise JsValue) :=
  p ← RESTClient.post pf this
        {| RequestData.o_auth := None;
           RequestData.o_body :=
             Some (JSON_stringify pf (JArray (map JObject parcels)));
           RequestData.o_headers :=
             Some [("Content-Type",
                       "application/vnd.budbee.multiple.orders-v2+json")];
           RequestData.o_path := "multiple/orders/" +:+ orderId +:+ "/parcels";
           RequestData.o_signal := None |};
  mret (then_ p (Response_json pf)).

Definition removeParcel (pf : Platform) (this : t) (orderId : string)
    (parcelId : JsNumber) : IO (Promise Response) :=
  RESTClient.delete pf this
    {| RequestData.o_auth := None;
       RequestData.o_body := None;
       RequestData.o_headers :=
         Some [("Content-Type",
                   "application/vnd.budbee.multiple.orders-v1+json")];
       RequestData.o_path :=
         "multiple/orders/" +:+ orderId +:+ "/parcels/"
           +:+ Number_toString parcelId;
       RequestData.o_signal := None |}.

Definition orderTracker (pf : Platform) (this : t) (orderId : string)
    : IO (Promise JsValue) :=
  p ← RESTClient.get pf this
        {| RequestData.o_auth := None;
           RequestData.o_body := None;
           RequestData.o_headers :=
             Some [("Content-Type",
                       "application/vnd.budbee.multiple.orders-v1+json")];
           RequestData.o_path :=
             "multiple/orders/" +:+ orderId +:+ "/tracking-url";
           RequestData.o_signal := None |};
  mret (then_ (then_ p (Response_json pf)) (js_get "url")).

Definition parcelTracker (pf : Platform) (this : t) (parcelId : string)
    : IO (Promise JsValue) :=
  p ← RESTClient.get pf this
        {| RequestData.o_auth := None;
           RequestData.o_body := None;
           RequestData.o_headers :=
             Some [("Content-Type",
                       "application/vnd.budbee.parcels-v1+json")];
           RequestData.o_path := "parcels/" +:+ parcelId +:+ "/tracking-url";
           RequestData.o_signal := None |};
  mret (then_ (then_ p (Response_json pf)) (js_get "url")).

Definition createPickup (pf : Platform) (this : t) (pickup : JsObject)
    : IO (Promise JsValue) :=
  p ← RESTClient.post pf this
        {| RequestData.o_auth := None;
           RequestData.o_body := Some (JSON_stringify pf (JObject pickup));
           RequestData.o_headers :=
             Some [("Content-Type",
                       "application/vnd.budbee.returns-v1+json")];
           RequestData.o_path := "returns";
           RequestData.o_signal := None |};
  mret (then_ p (Response_json pf)).

Definition createDropOff (pf : Platform) (this : t) (dropOff : JsObject)
    : IO (Promise JsValue) :=
  p ← RESTClient.post pf this
        {| RequestData.o_auth := None;
           RequestData.o_body := Some (JSON_stringify pf (JObject dropOff));
           RequestData.o_headers :=
             Some [("Content-Type",
                       "application/vnd.budbee.standalone-box-returns-v1+json")];
           RequestData.o_path := "box/return";
           RequestData.o_signal := None |};
  mret (then_ p (Response_json pf)).

Definition locker (pf : Platform) (this : t) (lockerId : string)
    : IO (Promise JsValue) :=
  p ← RESTClient.get pf this
        {| RequestData.o_auth := None;
           RequestData.o_body := None;
           RequestData.o_headers :=
             Some [("Content-Type", "application/vnd.budbee.boxes-v1+json")];
           RequestData.o_path := "boxes/" +:+ lockerId;
           RequestData.o_signal := None |};
  mret (then_ p (Response_json pf)).

Definition lockers (pf : Platform) (this : t) (countryCode : option string)
    : IO (Promise JsValue) :=
  let countryCode := default "SE" countryCode in
  p ← RESTClient.get pf this
        {| RequestData.o_auth := None;
           RequestData.o_body := None;
           RequestData.o_headers :=
             Some [("Content-Type", "application/vnd.budbee.boxes-v1+json")];
           RequestData.o_path := "boxes/all/" +:+ countryCode;
           RequestData.o_signal := None |};
  mret (then_ (then_ p (Response_json pf)) (js_get "lockers")).

Definition lockersInRegion (pf : Platform) (this : t) (postalCode : string)
    (countryCode : option string) : IO (Promise JsValue) :=
  let countryCode := default "SE" countryCode in
  p ← RESTClient.get pf this
        {| RequestData.o_auth := None;
           RequestData.o_body := None;
           RequestData.o_headers :=
             Some [("Content-Type", "application/vnd.budbee.boxes-v1+json")];
           RequestData.o_path :=
             "boxes/postalcodes/validate/" +:+ countryCode +:+ "/"
               +:+ postalCode;
           RequestData.o_signal := None |};
  mret (then_ (then_ p (Response_json pf)) (js_get "lockers")).

(** [{...delivery, productCodes: ["DLVBOX"], boxDelivery: {selectedBox:
    lockerId}}] *)
Definition box_order_payload (lockerId : LockerId) (delivery : JsObject)
    : JsObject :=
  obj_set "boxDelivery" (JObject [("selectedBox", LockerId_value lockerId)])
    (obj_set "productCodes" (JArray [JString "DLVBOX"])
       (obj_spread delivery [])).

Definition createBoxOrder (pf : Platform) (this : t) (lockerId : LockerId)
    (delivery : JsObject) : IO (Promise JsValue) :=
  p ← RESTClient.post pf this
        {| RequestData.o_auth := None;
           RequestData.o_body :=
             Some (JSON_stringify pf
                     (JObject (box_order_payload lockerId delivery)));
           RequestData.o_headers :=
             Some [("Content-Type",
                       "application/vnd.budbee.multiple.orders-v2+json")];
           RequestData.o_path := "multiple/orders";
           RequestData.o_signal := None |};
  mret (then_ p (Response_json pf)).

End Client.

(** ** Calls of the endpoint methods, as data

    One constructor per public method of [Client], with its arguments, so
    that a statement can range over every call a client can be asked to
    make. [perform] dispatches to the method. *)

Inductive Operation : Type :=
  | Warehouses
  | WarehouseInRegion (postalCode : StringOrNumber) (countryCode : option string)
  | PostalCodes (countryCode : option string)
  | DeliveryWindows (postalCode : StringOrNumber) (interval : IntervalArg)
      (countryCode : option string)
  | GetOrder (orderId : string)
  | CreateOrder (order : JsObject)
  | UpdateDeliveryConsumerInfo (orderId : string) (info : JsObject)
  | CancelOrder (orderId : string)
  | AddParcels (orderId : string) (parcels : list JsObject)
  | RemoveParcel (orderId : string) (parcelId : JsNumber)
  | OrderTracker (orderId : string)
  | ParcelTracker (parcelId : string)
  | CreatePickup (pickup : JsObject)
  | CreateDropOff (dropOff : JsObject)
  | GetLocker (lockerId : string)
  | Lockers (countryCode : option string)
  | LockersInRegion (postalCode : string) (countryCode : option string)
  | CreateBoxOrder (lockerId : LockerId) (delivery : JsObject).

(** What a method resolves to: a value read from the JSON of the body, or
    the response itself. *)
Inductive Result : Type :=
  | Parsed (v : JsValue)
  | Raw (res : Response).

Definition parsed (m : IO (Promise JsValue)) : IO (Completion (Promise Result)) :=
  p ← m; mret (Normal (then_ p (fun v => Resolved (Parsed v)))).

Definition raw (m : IO (Promise Response)) : IO (Completion (Promise Result)) :=
  p ← m; mret (Normal (then_ p (fun res => Resolved (Raw res)))).

Definition perform (pf : Platform) (this : Client.t) (op : Operation)
    : IO (Completion (Promise Result)) :=
  match op with
  | Warehouses => parsed (Client.warehouses pf this)
  | WarehouseInRegion pc cc => parsed (Client.warehouseInRegion pf this pc cc)
  | PostalCodes cc => parsed (Client.postalCodes pf this cc)
  | DeliveryWindows pc i cc =>
      c ← Client.deliveryWindows pf this pc i cc;
      mret (match c with
            | Normal p => Normal (then_ p (fun v => Resolved (Parsed v)))
            | Throw e => Throw e
            end)
  | GetOrder id => parsed (Client.order pf this id)
  | CreateOrder o => parsed (Client.createOrder pf this o)
  | UpdateDeliveryConsumerInfo id info =>
      parsed (Client.updateDeliveryConsumerInfo pf this id info)
  | CancelOrder id => raw (Client.cancelOrder pf this id)
  | AddParcels id ps => parsed (Client.addParcels pf this id ps)
  | RemoveParcel id pid => raw (Client.removeParcel pf this id pid)
  | OrderTracker id => parsed (Client.orderTracker pf this id)
  | ParcelTracker id => parsed (Client.parcelTracker pf this id)
  | CreatePickup p => parsed (Client.createPickup pf this p)
  | CreateDropOff d => parsed (Client.createDropOff pf this d)
  | GetLocker id => parsed (Client.locker pf this id)
  | Lockers cc => parsed (Client.lockers pf this cc)
  | LockersInRegion pc cc => parsed (Client.lockersInRegion pf this pc cc)
  | CreateBoxOrder id d => parsed (Client.createBoxOrder pf this id d)
  end.

(** A client used for several calls, one after the other. *)
Fixpoint run (pf : Platform) (this : Client.t) (ops : list Operation)
    : IO (list (Completion (Promise Result))) :=
  match ops with
  | [] => mret []
  | op :: rest =>
      r ← perform pf this op;
      rs ← run pf this rest;
      mret (r :: rs)
  end.

(** ** Vocabulary of the statements *)

(** A header of a call. *)
Definition header (k : string) (call : FetchCall) : option string :=
  RequestInit.headers (fetch_init call) !! k.

(** The host the specification names for a value of the [test] flag. *)
Definition staging_host : string := "https://api.staging.budbee.com".
Definition production_host : string := "https://api.budbee.com".

Definition host_for (test : option bool) : string :=
  match test with
  | Some true => staging_host
  | Some false | None => production_host
  end.

Definition host_of (this : RESTClient.t) : string :=
  host_for (Config.test (RESTClient.config this)).

(** The headers of a descriptor as [new Headers] accepts them (none when
    it refuses them). *)
Definition accepted_headers (this : RESTClient.t) (req : RequestData.t)
    : gmap string string :=
  match Headers_new (RESTClient.header_record this (RequestData.headers req)) with
  | Normal headers => headers
  | Throw _ => ∅
  end.

(** The call the request layer is specified to make for a descriptor whose
    headers are accepted: the host of the environment, one slash, the
    path; the headers; body, method and signal as given. *)
Definition issued_call (this : RESTClient.t) (req : RequestData.t) : FetchCall :=
  mkFetchCall (host_of this +:+ "/" +:+ RequestData.path req)
    (RequestInit.mk (RequestData.body req) (accepted_headers this req)
       (RequestData.method req) (RequestData.signal req)).

(** Success is a status in the closed range from 200 to 399. *)
Definition classify (res : Response) : Promise Response :=
  if bool_decide (200 <= status res <= 399)
  then Resolved res
  else Rejected (ThrownResponse res).

(** The same platform with another [JSON.parse]. *)
Definition with_JSON_parse (parse : string -> option JsValue) (pf : Platform)
    : Platform :=
  mkPlatform (fetch_settles pf) (JSON_stringify pf) parse (LocalTZA pf).

(** The name of the method an operation calls. *)
Definition method_name (op : Operation) : string :=
  match op with
  | Warehouses => "warehouses"
  | WarehouseInRegion _ _ => "warehouseInRegion"
  | PostalCodes _ => "postalCodes"
  | DeliveryWindows _ _ _ => "deliveryWindows"
  | GetOrder _ => "order"
  | CreateOrder _ => "createOrder"
  | UpdateDeliveryConsumerInfo _ _ => "updateDeliveryConsumerInfo"
  | CancelOrder _ => "cancelOrder"
  | AddParcels _ _ => "addParcels"
  | RemoveParcel _ _ => "removeParcel"
  | OrderTracker _ => "orderTracker"
  | ParcelTracker _ => "parcelTracker"
  | CreatePickup _ => "createPickup"
  | CreateDropOff _ => "createDropOff"
  | GetLocker _ => "locker"
  | Lockers _ => "lockers"
  | LockersInRegion _ _ => "lockersInRegion"
  | CreateBoxOrder _ _ => "createBoxOrder"
  end.

(** The resource family and the version in the media type of each method,
    read off the [Content-Type] literals of [src/index.ts]. *)
Definition resource_family (op : Operation) : string :=
  match op with
  | Warehouses => "users"
  | WarehouseInRegion _ _ | PostalCodes _ => "postalcodes"
  | DeliveryWindows _ _ _ => "intervals"
  | GetOrder _ | CreateOrder _ | UpdateDeliveryConsumerInfo _ _
  | CancelOrder _ | AddParcels _ _ | RemoveParcel _ _ | OrderTracker _
  | CreateBoxOrder _ _ => "multiple.orders"
  | ParcelTracker _ => "parcels"
  | CreatePickup _ => "returns"
  | CreateDropOff _ => "standalone-box-returns"
  | GetLocker _ | Lockers _ | LockersInRegion _ _ => "boxes"
  end.

Definition media_version (op : Operation) : Z :=
  match op with
  | WarehouseInRegion _ _ | DeliveryWindows _ _ _ | CreateOrder _
  | AddParcels _ _ | CreateBoxOrder _ _ => 2
  | _ => 1
  end.

Definition media_type (op : Operation) : string :=
  "application/vnd.budbee." +:+ resource_family op +:+ "-v"
    +:+ pretty (media_version op) +:+ "+json".












(** The text the client is specified to put in a path for a number: plain
    decimal for a safe integer, for another double what [Number::toString]
    gives. *)
Definition number_text (x : JsNumber) : string :=
  match x with
  | SafeInteger n _ => pretty n
  | OtherNumber printed => printed
  end.

Definition postal_text (postalCode : StringOrNumber) : string :=
  match postalCode with
  | Str s => s
  | Num x => number_text x
  end.

(** A text that holds no unpaired surrogate: [Buffer.from] writes it as it
    is. *)
Definition well_formed_text (s : string) : Prop := Buffer_from s = s.

(** Header names that are pairwise different also when the case of letters
    is ignored. *)
Definition distinct_names (names : list string) : Prop :=
  NoDup (Headers.lowercase <$> names).

(** A record [Headers] takes as it is: names that are tokens, values that
    pass and have no whitespace to lose. *)
Definition plain_entry (kv : string * string) : bool :=
  Headers.valid_name kv.1 && Headers.valid_value kv.2
  && String.eqb (Headers.normalize kv.2) kv.2.

(** [p] holds of the [n] integers from [z] on. *)
Fixpoint all_from (n : nat) (z : Z) (p : Z -> bool) : bool :=
  match n with
  | O => true
  | S n' => p z && all_from n' (z + 1) p
  end.


(** ** A platform to run the definitions on

    Every request is answered with one fixed response; [JSON.parse] knows
    the two envelope texts below; local time is UTC. *)

Definition dquote : string := String (Ascii.ascii_of_N 34) "".

Definition lockers_text : string :=
  "{" +:+ dquote +:+ "lockers" +:+ dquote +:+ ":[]}".

Definition url_text : string :=
  "{" +:+ dquote +:+ "url" +:+ dquote +:+ ":" +:+ dquote
    +:+ "https://t.example/1" +:+ dquote +:+ "}".

Definition demo_parse (text : string) : option JsValue :=
  if decide (text = lockers_text) then Some (JObject [("lockers", JArray [])])
  else if decide (text = url_text)
       then Some (JObject [("url", JString "https://t.example/1")])
       else None.

Definition demo_platform (answer : Response) : Platform :=
  {| fetch_settles := fun _ _ => Resolved answer;
     JSON_stringify := fun _ => "{}";
     JSON_parse := demo_parse;
     LocalTZA := fun _ => 0 |}.

Definition demo_client : Client.t :=
  RESTClient.new (Config.mk "user" "pass" None).

Definition demo_payload : JsObject :=
  [("collectionId", JNumber 7%Q); ("productCodes", JArray [JString "DLVHD"]);
   ("requireSignature", JBool false)].

Definition demo_request : RequestData.t :=
  RequestData.mk None None None "GET" "users/collection-points" None.

(** ** Vocabulary of the further statements *)

(** The HTTP verb of each method: the verb helper of [RESTClient] it
    calls. *)
Definition verb (op : Operation) : string :=
  match op with
  | CreateOrder _ | AddParcels _ _ | CreatePickup _ | CreateDropOff _
  | CreateBoxOrder _ _ => "POST"
  | UpdateDeliveryConsumerInfo _ _ => "PUT"
  | CancelOrder _ | RemoveParcel _ _ => "DELETE"
  | _ => "GET"
  end.

(** The methods that call [res.json()]: all but the two deletions. *)
Definition parses_body (op : Operation) : bool :=
  match op with
  | CancelOrder _ | RemoveParcel _ _ => false
  | _ => true
  end.

(** The property a method reads out of the parsed body, if it reads one. *)
Definition envelope_field (op : Operation) : option string :=
  match op with
  | Lockers _ | LockersInRegion _ _ => Some "lockers"
  | OrderTracker _ | ParcelTracker _ => Some "url"
  | _ => None
  end.

(** What a method chains on the promise of the request layer. *)
Definition continuation (pf : Platform) (op : Operation)
    (p : Promise Response) : Promise Result :=
  if parses_body op
  then
    match envelope_field op with
    | Some field =>
        then_ (then_ (then_ p (Response_json pf)) (js_get field))
          (fun v => Resolved (Parsed v))
    | None => then_ (then_ p (Response_json pf)) (fun v => Resolved (Parsed v))
    end
  else then_ p (fun res => Resolved (Raw res)).

(** Two platforms that serialize to JSON alike and have the same time zone;
    they may answer requests and parse bodies differently. *)
Definition same_rendering (pf pf' : Platform) : Prop :=
  JSON_stringify pf = JSON_stringify pf' /\ LocalTZA pf = LocalTZA pf'.

(** The colon, and strings without one. *)
Definition colon : Ascii.ascii := Ascii.ascii_of_N 58.

Fixpoint colon_free (s : string) : bool :=
  match s with
  | EmptyString => true
  | String c rest => negb (Ascii.eqb c colon) && colon_free rest
  end.

(** The characters of a base64 text: the alphabet and the padding sign. *)
Definition base64_char (c : Ascii.ascii) : bool :=
  bool_decide (c ∈ Base64.alphabet) || Ascii.eqb c (Ascii.ascii_of_N 61).

(** [p] holds of every pair of bytes. *)
Definition all_byte_pairs (p : N -> N -> bool) : bool :=
  all_from (Z.to_nat 256) 0 (fun a =>
    all_from (Z.to_nat 256) 0 (fun b => p (Z.to_N a) (Z.to_N b))).

(** A call with the Authorization header taken out. *)
Definition without_authorization (call : FetchCall) : FetchCall :=
  mkFetchCall (fetch_url call)
    (RequestInit.mk (RequestInit.body (fetch_init call))
       (delete "Authorization" (RequestInit.headers (fetch_init call)))
       (RequestInit.method (fetch_init call))
       (RequestInit.signal (fetch_init call))).

(** * Properties *)

(** ** Values of the platform functions *)

Example base64_rfc4648 :
  Base64.encode "" = "" /\ Base64.encode "f" = "Zg=="
  /\ Base64.encode "fo" = "Zm8=" /\ Base64.encode "foo" = "Zm9v"
  /\ Base64.encode "foob" = "Zm9vYg==" /\ Base64.encode "fooba" = "Zm9vYmE="
  /\ Base64.encode "foobar" = "Zm9vYmFy".
Proof. repeat split. Qed.

Example Number_toString_decimal :
  Number_toString (SafeInteger 0 I) = "0"
  /\ Number_toString (SafeInteger 7 I) = "7"
  /\ Number_toString (SafeInteger 11122 I) = "11122"
  /\ Number_toString (SafeInteger (-3) I) = "-3"
  /\ Number_toString (SafeInteger 9007199254740991 I) = "9007199254740991"
  /\ Number_toString (OtherNumber "1e+21") = "1e+21"
  /\ Number_toString (OtherNumber "1152921504606847000") = "1152921504606847000".
Proof. repeat split. Qed.

Example civil_from_days_known :
  Intl.civil_from_days 0 = Intl.mkCivil 1970 1 1
  /\ Intl.civil_from_days (-1) = Intl.mkCivil 1969 12 31
  /\ Intl.civil_from_days 11016 = Intl.mkCivil 2000 2 29
  /\ Intl.civil_from_days 19723 = Intl.mkCivil 2024 1 1
  /\ Intl.civil_from_days 19782 = Intl.mkCivil 2024 2 29.
Proof. repeat split. Qed.

(** A name that differs in case only is joined; a name that is no token
    is refused; a value loses the whitespace around it. *)
Example Headers_new_known :
  Headers_new [("Authorization", "Basic dXNlcjpwYXNz");
               ("authorization", "Bearer x")]
    = Normal {[ "Authorization" := "Basic dXNlcjpwYXNz, Bearer x" ]}
  /\ Headers_new [("Authorization", "Basic dXNlcjpwYXNz"); ("bad name", "v")]
       = Throw (ThrownError "TypeError")
  /\ Headers_new [("Accept", "  text/plain ")]
       = Normal {[ "Accept" := "text/plain" ]}.
Proof. repeat split. Qed.

(** An unpaired surrogate (here U+D800, then U+D801) is written as the
    replacement character. *)
Example Buffer_from_known :
  Buffer_from "plain" = "plain"
  /\ Buffer_from (String (Ascii.ascii_of_N 237) (String (Ascii.ascii_of_N 160)
                    (String (Ascii.ascii_of_N 128) "")))
     = Buffer_from (String (Ascii.ascii_of_N 237) (String (Ascii.ascii_of_N 160)
                      (String (Ascii.ascii_of_N 129) ""))).
Proof. repeat split. Qed.

(** ** Strings *)

Lemma list_ind3 {A : Type} (P : list A -> Prop) :
  P [] -> (forall a, P [a]) -> (forall a b, P [a; b]) ->
  (forall a b c rest, P rest -> P (a :: b :: c :: rest)) ->
  forall l, P l.
Proof.
  intros H0 H1 H2 H3 l.
  assert (Hall : P l /\ (forall a, P (a :: l)) /\ (forall a b, P (a :: b :: l))).
  { induction l as [|x l (IH0 & IH1 & IH2)]; [by auto|].
    split_and!; [apply IH1 | intros a; apply IH2 | intros a b; by apply H3]. }
  apply Hall.
Qed.

Lemma string_app_cons (c : Ascii.ascii) (s1 s2 : string) :
  String c s1 +:+ s2 = String c (s1 +:+ s2).
Proof. reflexivity. Qed.

Lemma string_app_nil (s : string) : "" +:+ s = s.
Proof. reflexivity. Qed.

Lemma string_app_assoc (s1 s2 s3 : string) :
  (s1 +:+ s2) +:+ s3 = s1 +:+ s2 +:+ s3.
Proof.
  induction s1 as [|c s1 IH]; [done|].
  rewrite !string_app_cons. by rewrite IH.
Qed.

Lemma string_length_app (s1 s2 : string) :
  String.length (s1 +:+ s2) = (String.length s1 + String.length s2)%nat.
Proof.
  induction s1 as [|c s1 IH]; [done|].
  rewrite string_app_cons. cbn [String.length]. by rewrite IH.
Qed.

Lemma string_forall_app (p : Ascii.ascii -> bool) (s1 s2 : string) :
  string_forall p (s1 +:+ s2) = string_forall p s1 && string_forall p s2.
Proof.
  induction s1 as [|c s1 IH]; [done|].
  rewrite string_app_cons. cbn [string_forall]. by rewrite IH, andb_assoc.
Qed.

Lemma string_forall_impl (p q : Ascii.ascii -> bool) (s : string) :
  (forall c, p c = true -> q c = true) ->
  string_forall p s = true -> string_forall q s = true.
Proof.
  intros Hpq. induction s as [|c s IH]; [done|]. cbn [string_forall].
  intros [Hc Hs]%andb_true_iff. by rewrite (Hpq c Hc), IH.
Qed.

Lemma list_ascii_length (s : string) :
  length (String.list_ascii_of_string s) = String.length s.
Proof. induction s as [|c s IH]; cbn; [done | by rewrite IH]. Qed.

Lemma Buffer_from_cons (a : Ascii.ascii) (tl : string) :
  Buffer_from (String a tl) =
    match tl with
    | String b (String c rest) =>
        if (Ascii.N_of_ascii a =? 237)%N
           && (160 <=? Ascii.N_of_ascii b)%N && (Ascii.N_of_ascii b <=? 191)%N
           && (128 <=? Ascii.N_of_ascii c)%N && (Ascii.N_of_ascii c <=? 191)%N
        then String (Ascii.ascii_of_N 239)
               (String (Ascii.ascii_of_N 191)
                  (String (Ascii.ascii_of_N 189) (Buffer_from rest)))
        else String a (Buffer_from tl)
    | _ => String a (Buffer_from tl)
    end.
Proof. by destruct tl as [|b [|c rest]]. Qed.

(** [Buffer.from] keeps the number of bytes. *)
Lemma Buffer_from_length (s : string) :
  String.length (Buffer_from s) = String.length s.
Proof.
  assert (Hall : forall n s, (String.length s <= n)%nat ->
            String.length (Buffer_from s) = String.length s).
  { clear s. induction n as [|n IH]; intros [|a tl] Hlen; cbn in Hlen;
      try reflexivity; [lia|].
    rewrite Buffer_from_cons.
    destruct tl as [|b [|c rest]];
      [reflexivity | cbn [String.length]; rewrite IH; [done | cbn in *; lia] |].
    match goal with |- context [if ?c then _ else _] => destruct c end;
      cbn [String.length]; rewrite IH; cbn in *; lia. }
  by apply (Hall (String.length s)).
Qed.

(** ** The token *)

Lemma encode_bytes_length (bs : list N) :
  String.length (Base64.encode_bytes bs) = (4 * ((length bs + 2) / 3))%nat.
Proof.
  induction bs as [| a | a b | a b c rest IH] using list_ind3; try reflexivity.
  cbn [Base64.encode_bytes String.length length]. rewrite IH.
  replace (S (S (S (length rest))) + 2)%nat with (1 * 3 + (length rest + 2))%nat
    by lia.
  rewrite Nat.div_add_l by done. lia.
Qed.

Lemma sextet_base64_char (n : N) : base64_char (Base64.sextet n) = true.
Proof.
  unfold base64_char, Base64.sextet.
  destruct (decide (N.to_nat n < length Base64.alphabet)%nat) as [Hlt|Hge].
  - apply orb_true_iff. left. apply bool_decide_eq_true.
    apply list_elem_of_In. by apply nth_In.
  - rewrite nth_overflow by lia. apply orb_true_iff. right.
    apply Ascii.eqb_refl.
Qed.

Lemma encode_bytes_chars (bs : list N) :
  string_forall base64_char (Base64.encode_bytes bs) = true.
Proof.
  induction bs as [| a | a b | a b c rest IH] using list_ind3; try reflexivity;
    cbn [Base64.encode_bytes string_forall];
    rewrite ?sextet_base64_char, ?IH; reflexivity.
Qed.

Lemma encode_length (s : string) :
  String.length (Base64.encode s) = (4 * ((String.length s + 2) / 3))%nat.
Proof.
  unfold Base64.encode.
  by rewrite encode_bytes_length, length_map, list_ascii_length.
Qed.

(** The token of a client: base64 characters, and at least four of them. *)
Lemma auth_chars (this : RESTClient.t) :
  string_forall base64_char (RESTClient.auth this) = true.
Proof. rewrite (RESTClient.auth_built this). apply encode_bytes_chars. Qed.

Lemma auth_not_empty (this : RESTClient.t) : RESTClient.auth this <> "".
Proof.
  intros Hempty. apply (f_equal String.length) in Hempty.
  rewrite (RESTClient.auth_built this), encode_length, Buffer_from_length,
    !string_length_app in Hempty.
  cbn [String.length] in Hempty.
  set (n := (String.length _ + (1 + String.length _) + 2)%nat) in Hempty.
  assert (1 <= n / 3)%nat; [|lia].
  apply Nat.div_le_lower_bound; lia.
Qed.

(** ** Records of strings *)





Lemma record_set_keys (k v : string) (o : StringRecord.t) :
  (StringRecord.set k v o).*1 = if decide (k ∈ o.*1) then o.*1 else o.*1 ++ [k].
Proof.
  induction o as [|[k' v'] rest IH]; cbn.
  - rewrite decide_False; [done | apply not_elem_of_nil].
  - destruct (decide (k' = k)) as [->|Hne]; cbn.
    + rewrite decide_True; [done | apply elem_of_cons; by left].
    + rewrite IH. destruct (decide (k ∈ rest.*1)) as [Hin|Hout].
      * rewrite decide_True; [done | apply elem_of_cons; by right].
      * rewrite decide_False; [done|].
        intros [->|Hin]%elem_of_cons; done.
Qed.

Lemma record_set_Forall (P : string * string -> Prop) (k v : string)
    (o : StringRecord.t) :
  P (k, v) -> Forall P o -> Forall P (StringRecord.set k v o).
Proof.
  intros Hkv. induction 1 as [|[k' v'] rest Hx Hrest IH]; cbn.
  - by constructor.
  - destruct (decide (k' = k)) as [->|Hne]; constructor; auto.
Qed.

Lemma record_spread_Forall (P : string * string -> Prop)
    (src target : StringRecord.t) :
  Forall P src -> Forall P target -> Forall P (StringRecord.spread src target).
Proof.
  intros Hsrc. revert target. induction Hsrc as [|[k v] rest Hx Hrest IH];
    intros target Ht; [done|].
  unfold StringRecord.spread. cbn [foldl fst snd]. apply IH.
  by apply record_set_Forall.
Qed.

(** The first property of the target stays the first. *)
Lemma record_set_head (k v k0 v0 : string) (o : StringRecord.t) :
  exists v1 o1, StringRecord.set k v ((k0, v0) :: o) = (k0, v1) :: o1.
Proof. cbn. destruct (decide (k0 = k)); by eexists _, _. Qed.

Lemma record_spread_head (src : StringRecord.t) (k0 v0 : string)
    (o : StringRecord.t) :
  exists v1 o1, StringRecord.spread src ((k0, v0) :: o) = (k0, v1) :: o1.
Proof.
  revert v0 o. induction src as [|[k v] rest IH]; intros v0 o.
  - by eexists _, _.
  - unfold StringRecord.spread. cbn [foldl fst snd].
    destruct (record_set_head k v k0 v0 o) as (v1 & o1 & ->). apply IH.
Qed.

Lemma record_spread_distinct (src target : StringRecord.t) :
  distinct_names (src.*1) -> distinct_names (target.*1) ->
  (forall n m, n ∈ src.*1 -> m ∈ target.*1 ->
     Headers.lowercase n = Headers.lowercase m -> n = m) ->
  distinct_names ((StringRecord.spread src target).*1).
Proof.
  unfold distinct_names.
  revert target. induction src as [|[k v] rest IH]; intros target Hsrc Ht Hx;
    [done|].
  cbn in Hsrc. apply NoDup_cons in Hsrc as [Hk Hrest].
  unfold StringRecord.spread. cbn [foldl fst snd]. apply IH; [done | |].
  - rewrite record_set_keys. case_decide as Hin; [done|].
    rewrite fmap_app. apply NoDup_app. split_and!; [done | | apply NoDup_singleton].
    intros x Hx1 ->%list_elem_of_singleton.
    apply list_elem_of_fmap in Hx1 as (m & Hm & Hmin).
    apply Hin. rewrite (Hx k m); [done | | done | done].
    cbn. apply elem_of_cons. by left.
  - intros n m Hn Hm Hlow. rewrite record_set_keys in Hm.
    assert (Hcase : m ∈ target.*1 \/ m = k).
    { case_decide; [by left|].
      apply elem_of_app in Hm as [Hm | Hm%list_elem_of_singleton]; auto. }
    destruct Hcase as [Hm' | ->].
    + apply Hx; [|done..]. cbn. apply elem_of_cons. by right.
    + exfalso. apply Hk. rewrite <- Hlow. by apply list_elem_of_fmap_2.
Qed.

(** ** [Headers] *)

Lemma same_name_false (a b : string) :
  Headers.lowercase a <> Headers.lowercase b -> Headers.same_name a b = false.
Proof. intros Hne. by apply String.eqb_neq. Qed.

Lemma combine_fresh (name value : string) (hl : list (string * string)) :
  Headers.lowercase name ∉ Headers.lowercase <$> hl.*1 ->
  Headers.combine name value hl = hl ++ [(name, value)].
Proof.
  induction hl as [|[n v] rest IH]; cbn; [done|].
  intros [Hne Hrest]%not_elem_of_cons.
  rewrite same_name_false by done. by rewrite IH.
Qed.

Lemma append_plain (name value : string) (hl : list (string * string)) :
  plain_entry (name, value) = true ->
  Headers.append name value hl = Normal (Headers.combine name value hl).
Proof.
  unfold plain_entry, Headers.append. cbn [fst snd].
  intros [[Hname Hvalue]%andb_true_iff Hnorm%String.eqb_eq]%andb_true_iff.
  by rewrite Hnorm, Hname, Hvalue.
Qed.

(** A record of plain entries with names that differ beyond case goes into
    the header list as it is. *)
Lemma fill_plain (record : StringRecord.t) (hl : list (string * string)) :
  Forall (fun kv => plain_entry kv = true) record ->
  distinct_names ((hl ++ record).*1) ->
  Headers.fill record hl = Normal (hl ++ record).
Proof.
  unfold distinct_names.
  revert hl. induction record as [|[name value] rest IH]; intros hl Hplain Hd.
  - by rewrite app_nil_r.
  - apply Forall_cons in Hplain as [Hp Hrest].
    cbn [Headers.fill]. rewrite append_plain by done.
    rewrite combine_fresh.
    + rewrite IH; [by rewrite <- app_assoc | done | by rewrite <- app_assoc].
    + rewrite !fmap_app in Hd. apply NoDup_app in Hd as (_ & Hdisj & Hnd).
      intros Hin. apply (Hdisj _ Hin). cbn. apply elem_of_cons. by left.
Qed.


(** The name that came first keeps its place and its spelling. *)
Lemma combine_head (name value n v : string) (hl : list (string * string)) :
  exists v1 hl1, Headers.combine name value ((n, v) :: hl) = (n, v1) :: hl1.
Proof. cbn. destruct (Headers.same_name n name); by eexists _, _. Qed.

Lemma fill_head (record : StringRecord.t) (n v : string)
    (hl hl' : list (string * string)) :
  Headers.fill record ((n, v) :: hl) = Normal hl' ->
  exists v1 hl1, hl' = (n, v1) :: hl1.
Proof.
  revert v hl. induction record as [|[name value] rest IH]; intros v hl Hfill.
  - injection Hfill as <-. by eexists _, _.
  - cbn [Headers.fill] in Hfill. unfold Headers.append in Hfill.
    destruct (_ && _); [|discriminate Hfill].
    destruct (combine_head name (Headers.normalize value) n v hl)
      as (v1 & hl1 & Heq).
    rewrite Heq in Hfill. by apply IH in Hfill.
Qed.

(** A name no later entry equals up to case keeps its value, too. *)
Lemma fill_head_alone (record : StringRecord.t) (n v : string)
    (hl hl' : list (string * string)) :
  Headers.fill record ((n, v) :: hl) = Normal hl' ->
  Forall (fun kv => Headers.same_name n kv.1 = false) record ->
  exists hl1, hl' = (n, v) :: hl1.
Proof.
  revert hl. induction record as [|[name value] rest IH]; intros hl Hfill Hall.
  - injection Hfill as <-. by eexists.
  - apply Forall_cons in Hall as [Hne Hrest]. cbn [fst] in Hne.
    cbn [Headers.fill] in Hfill. unfold Headers.append in Hfill.
    destruct (_ && _); [|discriminate Hfill].
    cbn [Headers.combine] in Hfill. rewrite Hne in Hfill.
    by apply IH in Hfill.
Qed.

(** Base64 characters are plain in a header value. *)
Lemma base64_char_plain (c : Ascii.ascii) :
  base64_char c = true ->
  Headers.value_byte c = true /\ Headers.whitespace c = false.
Proof.
  destruct c as [[] [] [] [] [] [] [] []]; vm_compute; intros H;
    first [discriminate H | by split].
Qed.

Lemma strip_trailing_keep (a b : string) :
  b <> "" -> Headers.strip_trailing b = b ->
  Headers.strip_trailing (a +:+ b) = a +:+ b.
Proof.
  intros Hne Hb. induction a as [|c a IH]; [done|].
  rewrite string_app_cons. cbn [Headers.strip_trailing]. rewrite IH.
  destruct (a +:+ b) eqn:Hab; [|done].
  destruct a; [by rewrite string_app_nil in Hab | discriminate Hab].
Qed.

Lemma strip_trailing_plain (s : string) :
  string_forall (fun c => negb (Headers.whitespace c)) s = true ->
  Headers.strip_trailing s = s.
Proof.
  induction s as [|c s IH]; [done|]. cbn [string_forall Headers.strip_trailing].
  intros [Hc Hs]%andb_true_iff. rewrite IH by done.
  destruct s; [|done]. by destruct (Headers.whitespace c).
Qed.

(** The authorization entry of a client is plain. *)
Lemma basic_plain (this : RESTClient.t) :
  plain_entry ("Authorization", "Basic " +:+ RESTClient.auth this) = true.
Proof.
  pose proof (auth_chars this) as Hchars.
  unfold plain_entry. cbn [fst snd].
  apply andb_true_iff. split; [apply andb_true_iff; split; [reflexivity|]|].
  - unfold Headers.valid_value. rewrite string_forall_app.
    apply andb_true_iff. split; [reflexivity|].
    eapply string_forall_impl; [|exact Hchars].
    intros c Hc. by apply base64_char_plain.
  - apply String.eqb_eq. unfold Headers.normalize.
    assert (Hlead : Headers.strip_leading ("Basic " +:+ RESTClient.auth this)
                    = "Basic " +:+ RESTClient.auth this) by reflexivity.
    rewrite Hlead. apply strip_trailing_keep; [apply auth_not_empty|].
    apply strip_trailing_plain.
    eapply string_forall_impl; [|exact Hchars].
    intros c Hc. destruct (base64_char_plain c Hc) as [_ ->]. reflexivity.
Qed.

(** The headers of an endpoint method: the record holds the authorization
    entry and one content type, and [Headers] takes both as they are. *)
Lemma endpoint_accepted (this : RESTClient.t) (content_type : string) :
  plain_entry ("Content-Type", content_type) = true ->
  Headers_new
    (RESTClient.header_record this (Some [("Content-Type", content_type)]))
  = Normal ({[ "Content-Type" := content_type ]}
              ∪ {[ "Authorization" := "Basic " +:+ RESTClient.auth this ]}).
Proof.
  intros Hplain. unfold Headers_new.
  assert (Hrec : RESTClient.header_record this
                   (Some [("Content-Type", content_type)])
                 = [("Authorization", "Basic " +:+ RESTClient.auth this);
                    ("Content-Type", content_type)]) by reflexivity.
  rewrite Hrec, fill_plain.
  - reflexivity.
  - repeat constructor; [apply basic_plain | done].
  - unfold distinct_names. cbn. apply (bool_decide_unpack _). by vm_compute.
Qed.

(** ** The request layer *)

Lemma host_of_url (this : RESTClient.t) :
  (if truthy (Config.test (RESTClient.config this))
   then "https://api.staging.budbee.com" else "https://api.budbee.com")
  = host_of this.
Proof.
  unfold host_of. by destruct (Config.test (RESTClient.config this)) as [[]|].
Qed.

Lemma classify_status (res : Response) :
  (if (status res <? 200) || (status res >? 399)
   then Rejected (ThrownResponse res) else Resolved res)
  = classify res.
Proof.
  unfold classify.
  destruct (Z.ltb_spec (status res) 200), (Z.gtb_spec (status res) 399);
    simpl; case_bool_decide; (reflexivity || lia).
Qed.

(** When [new Headers] refuses the record the request fails with its error
    and [fetch] is not called; otherwise the request makes the one call of
    the descriptor and settles as [fetch] and the status decide. *)
Lemma request_unfold (pf : Platform) (this : RESTClient.t) (req : RequestData.t)
    (net : Net) :
  RESTClient.request pf this req net =
    match Headers_new (RESTClient.header_record this (RequestData.headers req)) with
    | Throw e => (Rejected e, net)
    | Normal _ =>
        (then_ (fetch_settles pf net (issued_call this req)) classify,
         net ++ [issued_call this req])
    end.
Proof.
  unfold RESTClient.request, issued_call, accepted_headers.
  rewrite host_of_url.
  destruct (Headers_new _) as [headers|e]; [|reflexivity].
  unfold fetch, mbind, IO_bind, mret, IO_ret. f_equal.
  destruct (fetch_settles pf net _) as [res|e]; [|reflexivity].
  cbn [then_]. apply classify_status.
Qed.

Lemma log_grows {A : Type} (net : list A) (call : A) : net <> net ++ [call].
Proof.
  intros Heq. apply (f_equal length) in Heq. rewrite length_app in Heq.
  cbn in Heq. lia.
Qed.

Lemma request_calls (pf : Platform) (this : RESTClient.t) (req : RequestData.t)
    (net : Net) (call : FetchCall) :
  (RESTClient.request pf this req net).2 = net ++ [call] ->
  call = issued_call this req
  /\ RESTClient.request pf this req net
     = (then_ (fetch_settles pf net (issued_call this req)) classify,
        net ++ [issued_call this req]).
Proof.
  rewrite request_unfold.
  destruct (Headers_new _) as [headers|e]; cbn [snd]; intros H.
  - apply app_inv_head in H. split; [congruence | done].
  - by apply log_grows in H.
Qed.

(** A descriptor of an endpoint method: one header, a plain content type. *)
Lemma request_endpoint (pf : Platform) (this : RESTClient.t)
    (req : RequestData.t) (net : Net) (content_type : string) :
  RequestData.headers req = Some [("Content-Type", content_type)] ->
  plain_entry ("Content-Type", content_type) = true ->
  RESTClient.request pf this req net
    = (then_ (fetch_settles pf net (issued_call this req)) classify,
       net ++ [issued_call this req]).
Proof.
  intros Hh Hplain. rewrite request_unfold, Hh.
  by rewrite endpoint_accepted.
Qed.

Lemma endpoint_headers (this : RESTClient.t) (req : RequestData.t)
    (content_type : string) :
  RequestData.headers req = Some [("Content-Type", content_type)] ->
  plain_entry ("Content-Type", content_type) = true ->
  RequestInit.headers (fetch_init (issued_call this req))
    = {[ "Content-Type" := content_type ]}
        ∪ {[ "Authorization" := "Basic " +:+ RESTClient.auth this ]}.
Proof.
  intros Hh Hplain. unfold issued_call, accepted_headers. cbn.
  by rewrite Hh, endpoint_accepted.
Qed.

Lemma endpoint_header_authorization (this : RESTClient.t) (req : RequestData.t)
    (content_type : string) :
  RequestData.headers req = Some [("Content-Type", content_type)] ->
  plain_entry ("Content-Type", content_type) = true ->
  header "Authorization" (issued_call this req)
    = Some ("Basic " +:+ RESTClient.auth this).
Proof.
  intros Hh Hplain. unfold header.
  rewrite (endpoint_headers this req content_type Hh Hplain).
  rewrite lookup_union_r by done. apply lookup_singleton_eq.
Qed.

Lemma media_type_plain (op : Operation) :
  plain_entry ("Content-Type", media_type op) = true.
Proof. by destruct op. Qed.

(** ** Running [IO] code *)

Lemma bind_run {A B : Type} (m : IO A) (f : A -> IO B) (net : Net) :
  (m ≫= f) net = f (m net).1 (m net).2.
Proof. unfold mbind, IO_bind. by destruct (m net). Qed.

Lemma ret_run {A : Type} (a : A) (net : Net) : (mret a : IO A) net = (a, net).
Proof. reflexivity. Qed.

Lemma parsed_run (m : IO (Promise JsValue)) (net : Net) :
  parsed m net =
    (Normal (then_ (m net).1 (fun v => Resolved (Parsed v))), (m net).2).
Proof. unfold parsed. by rewrite bind_run. Qed.

Lemma raw_run (m : IO (Promise Response)) (net : Net) :
  raw m net =
    (Normal (then_ (m net).1 (fun res => Resolved (Raw res))), (m net).2).
Proof. unfold raw. by rewrite bind_run. Qed.

(** A verb method is [request] on the descriptor with that verb. *)
Lemma verb_run (pf : Platform) (this : RESTClient.t)
    (req : RequestData.omit_method) (net : Net) :
  RESTClient.get pf this req net
    = RESTClient.request pf this (RequestData.with_method "GET" req) net
  /\ RESTClient.post pf this req net
    = RESTClient.request pf this (RequestData.with_method "POST" req) net
  /\ RESTClient.put pf this req net
    = RESTClient.request pf this (RequestData.with_method "PUT" req) net
  /\ RESTClient.delete pf this req net
    = RESTClient.request pf this (RequestData.with_method "DELETE" req) net.
Proof. done. Qed.

Ltac run_method :=
  unfold Client.warehouses, Client.warehouseInRegion, Client.postalCodes,
    Client.order, Client.createOrder, Client.updateDeliveryConsumerInfo,
    Client.cancelOrder, Client.addParcels, Client.removeParcel,
    Client.orderTracker, Client.parcelTracker, Client.createPickup,
    Client.createDropOff, Client.locker, Client.lockers,
    Client.lockersInRegion, Client.createBoxOrder,
    RESTClient.get, RESTClient.post, RESTClient.put, RESTClient.delete;
  rewrite ?bind_run;
  repeat (erewrite request_endpoint; [|reflexivity|reflexivity]);
  rewrite ?ret_run; cbn [fst snd].

(** Every method makes at most one call, the one of a descriptor whose only
    header is the content type of the method; only [deliveryWindows] on an
    invalid date makes none. *)
Lemma perform_issues (pf : Platform) (this : Client.t) (op : Operation)
    (net : Net) :
  (perform pf this op net).2 = net
  \/ exists req : RequestData.t,
       (perform pf this op net).2 = net ++ [issued_call this req]
       /\ RequestData.headers req = Some [("Content-Type", media_type op)].
Proof.
  destruct op; cbn [perform]; rewrite ?parsed_run, ?raw_run;
    try (right; eexists; split; [run_method; reflexivity | reflexivity]).
  unfold Client.deliveryWindows.
  destruct (Client.interval_segment pf interval) as [segment|e].
  - right. eexists. split; [rewrite bind_run; run_method; reflexivity | reflexivity].
  - left. reflexivity.
Qed.

(** A sequence of calls on one client: the log grows by calls that are each
    the call of some descriptor carrying one content type. *)
Lemma run_issues (pf : Platform) (this : Client.t) (ops : list Operation)
    (net : Net) :
  exists new : Net,
    (run pf this ops net).2 = net ++ new
    /\ Forall (fun call => exists op req,
                 op ∈ ops /\ call = issued_call this req
                 /\ RequestData.headers req
                      = Some [("Content-Type", media_type op)]) new.
Proof.
  revert net. induction ops as [|op rest IH]; intros net.
  - exists []. split; [by rewrite app_nil_r | constructor].
  - cbn [run]. rewrite !bind_run. cbn [fst snd].
    destruct (IH (perform pf this op net).2) as (new & Hnew & Hall).
    rewrite Hnew.
    assert (Hrest : Forall (fun call => exists op' req,
                 op' ∈ op :: rest /\ call = issued_call this req
                 /\ RequestData.headers req
                      = Some [("Content-Type", media_type op')]) new).
    { eapply Forall_impl; [exact Hall|].
      intros call (op' & req & Hin & Hc & Hh). exists op', req.
      split; [apply elem_of_cons; by right | done]. }
    destruct (perform_issues pf this op net) as [Hsame | (req & Hone & Hh)].
    + exists new. by rewrite Hsame.
    + exists (issued_call this req :: new). rewrite Hone, <- app_assoc. split; [done|].
      constructor; [|done]. exists op, req. split; [apply elem_of_cons; by left | done].
Qed.

(** C1. Whatever the request and whatever the response the platform hands
    to the request layer: a status from 200 to 399 inclusive resolves the
    operation with that response; any other status makes it fail with that
    same response object as the failure value; and the outcome does not
    depend on [JSON.parse], so no body is parsed on either path. *)
Theorem C1_status_classification (pf : Platform) (this : RESTClient.t)
    (req : RequestData.t) (net : Net) (call : FetchCall) (res : Response) :
  (RESTClient.request pf this req net).2 = net ++ [call] ->
  fetch_settles pf net call = Resolved res ->
  (200 <= status res <= 399 ->
     (RESTClient.request pf this req net).1 = Resolved res)
  /\ (~ (200 <= status res <= 399) ->
     (RESTClient.request pf this req net).1 = Rejected (ThrownResponse res))
  /\ (forall parse : string -> option JsValue,
     RESTClient.request (with_JSON_parse parse pf) this req net
       = RESTClient.request pf this req net).
Proof.
  intros Hcall Hres. apply request_calls in Hcall as [-> Hrun].
  split; [|split].
  - intros Hok. rewrite Hrun. cbn [fst]. rewrite Hres. cbn [then_].
    unfold classify. by rewrite bool_decide_eq_true_2.
  - intros Hko. rewrite Hrun. cbn [fst]. rewrite Hres. cbn [then_].
    unfold classify. by rewrite bool_decide_eq_false_2.
  - intros parse. by rewrite !request_unfold.
Qed.

Lemma C1_status_classification_witness :
  (RESTClient.request (demo_platform (mkResponse 404 "gone")) demo_client
     demo_request []).1
  = Rejected (ThrownResponse (mkResponse 404 "gone")).
Proof.
  refine (proj1 (proj2 (C1_status_classification
            (demo_platform (mkResponse 404 "gone")) demo_client demo_request []
            (issued_call demo_client demo_request) (mkResponse 404 "gone")
            _ eq_refl)) _).
  - reflexivity.
  - cbn. lia.
Defined.

(** ** The headers of a request *)

Lemma same_name_refl (a : string) : Headers.same_name a a = true.
Proof. apply String.eqb_refl. Qed.

(** Keys other than the first of the target leave it in place. *)
Lemma record_spread_fresh_head (src : StringRecord.t) (k0 v0 : string)
    (o : StringRecord.t) :
  k0 ∉ src.*1 ->
  StringRecord.spread src ((k0, v0) :: o) = (k0, v0) :: StringRecord.spread src o.
Proof.
  revert o. induction src as [|[k v] rest IH]; intros o Hfresh; [done|].
  cbn in Hfresh. apply not_elem_of_cons in Hfresh as [Hne Hrest].
  unfold StringRecord.spread. cbn [foldl fst snd StringRecord.set].
  rewrite decide_False by done. by apply IH.
Qed.

(** The authorization entry is the first of the header list, under the
    name Authorization as the layer spells it. *)
Lemma accepted_authorization (this : RESTClient.t)
    (hs : option StringRecord.t) (headers : gmap string string) :
  Headers_new (RESTClient.header_record this hs) = Normal headers ->
  is_Some (headers !! "Authorization").
Proof.
  unfold Headers_new, RESTClient.header_record.
  destruct (record_spread_head (default [] hs) "Authorization"
              ("Basic " +:+ RESTClient.auth this) []) as (v1 & o1 & ->).
  cbn [Headers.fill]. unfold Headers.append.
  destruct (_ && _); [|discriminate]. cbn [Headers.combine].
  destruct (Headers.fill o1 _) as [hl|e] eqn:Hfill; [|discriminate].
  intros [= <-]. apply fill_head in Hfill as (v2 & hl1 & ->).
  rewrite list_to_map_cons, lookup_insert_eq. by eexists.
Qed.

(** When no header of the caller is named like it, it holds the token. *)
Lemma accepted_basic (this : RESTClient.t) (hs : option StringRecord.t)
    (headers : gmap string string) :
  Headers_new (RESTClient.header_record this hs) = Normal headers ->
  Forall (fun kv => Headers.same_name "Authorization" kv.1 = false)
    (default [] hs) ->
  headers !! "Authorization" = Some ("Basic " +:+ RESTClient.auth this).
Proof.
  intros Hnew Hnone. unfold Headers_new, RESTClient.header_record in Hnew.
  rewrite record_spread_fresh_head in Hnew.
  2:{ intros Hin. apply list_elem_of_fmap in Hin as ([k v] & Hk & Hin).
      cbn in Hk.
      rewrite Forall_forall in Hnone. specialize (Hnone _ Hin).
      change ((k, v).1) with k in Hnone. subst k.
      by rewrite same_name_refl in Hnone. }
  cbn [Headers.fill] in Hnew. rewrite (append_plain _ _ _ (basic_plain this)) in Hnew.
  cbn [Headers.combine] in Hnew.
  destruct (Headers.fill _ _) as [hl|e] eqn:Hfill; [|discriminate].
  injection Hnew as <-.
  apply fill_head_alone in Hfill as (hl1 & ->).
  - by rewrite list_to_map_cons, lookup_insert_eq.
  - apply record_spread_Forall; [exact Hnone | constructor].
Qed.


(** A record of plain entries whose names differ beyond case, none of them
    another spelling of Authorization: [Headers] holds it as it is. *)
Lemma accepted_plain (this : RESTClient.t) (hs : option StringRecord.t) :
  Forall (fun kv => plain_entry kv = true) (default [] hs) ->
  distinct_names ((default [] hs).*1) ->
  (forall name, name ∈ (default [] hs).*1 ->
     Headers.same_name name "Authorization" = true -> name = "Authorization") ->
  Headers_new (RESTClient.header_record this hs)
    = Normal (list_to_map (RESTClient.header_record this hs)).
Proof.
  intros Hplain Hdistinct Hauth. unfold Headers_new.
  rewrite fill_plain; [done | |].
  - apply record_spread_Forall; [done|]. constructor; [apply basic_plain | done].
  - cbn [app]. apply record_spread_distinct; [done | |].
    + unfold distinct_names. cbn. apply NoDup_singleton.
    + intros n m Hn Hm Hlow. cbn in Hm. apply list_elem_of_singleton in Hm as ->.
      apply Hauth; [done|]. by apply String.eqb_eq.
Qed.

(** A call was made: the headers were accepted, and the call carries them. *)
Lemma request_call_headers (pf : Platform) (this : RESTClient.t)
    (req : RequestData.t) (net : Net) (call : FetchCall) :
  (RESTClient.request pf this req net).2 = net ++ [call] ->
  Headers_new (RESTClient.header_record this (RequestData.headers req))
    = Normal (RequestInit.headers (fetch_init call)).
Proof.
  rewrite request_unfold. unfold issued_call, accepted_headers.
  destruct (Headers_new _) as [headers|e]; cbn [snd]; intros H.
  - apply app_inv_head in H. by injection H as <-.
  - by apply log_grows in H.
Qed.

(** C2. For all credentials: the constructor stores, as the token, base64
    of the bytes of [key:secret]; every call a client makes through any
    sequence of endpoint methods carries Authorization: Basic followed by
    that token, the same on every call, and so does every call made
    through the request layer with a descriptor that names no header like
    Authorization; and a request reads the stored token only: a client
    holding the same token and flag makes the same request, so nothing is
    encoded again after construction. *)
Theorem C2_authorization_token (pf : Platform) (cfg : Config.t) :
  let this := RESTClient.new cfg in
  let token :=
    Base64.encode (Buffer_from (Config.key cfg +:+ ":" +:+ Config.secret cfg)) in
  RESTClient.auth this = token
  /\ (forall (ops : list Operation) (net : Net),
        exists new : Net,
          (run pf this ops net).2 = net ++ new
          /\ Forall (fun call =>
               header "Authorization" call = Some ("Basic " +:+ token)) new)
  /\ (forall (req : RequestData.t) (net : Net) (call : FetchCall),
        (RESTClient.request pf this req net).2 = net ++ [call] ->
        Forall (fun kv => Headers.same_name "Authorization" kv.1 = false)
          (default [] (RequestData.headers req)) ->
        header "Authorization" call = Some ("Basic " +:+ token))
  /\ (forall (this' : RESTClient.t) (req : RequestData.t) (net : Net),
        RESTClient.auth this' = token ->
        Config.test (RESTClient.config this') = Config.test cfg ->
        RESTClient.request pf this' req net = RESTClient.request pf this req net).
Proof.
  intros this token. split; [reflexivity|]. split; [|split].
  - intros ops net.
    destruct (run_issues pf this ops net) as (new & Hnew & Hall).
    exists new. split; [done|].
    eapply Forall_impl; [exact Hall|].
    intros call (op & req & _ & -> & Hh).
    by rewrite (endpoint_header_authorization this req _ Hh (media_type_plain op)).
  - intros req net call Hcall Hnone.
    apply request_call_headers in Hcall.
    by apply (accepted_basic this _ _ Hcall).
  - intros this' req net Hauth Htest.
    unfold RESTClient.request, RESTClient.header_record.
    by rewrite Hauth, Htest.
Qed.

Lemma C2_authorization_token_witness :
  RESTClient.auth (RESTClient.new (Config.mk "user" "pass" None)) = "dXNlcjpwYXNz"
  /\ header "Authorization"
       (issued_call (RESTClient.new (Config.mk "user" "pass" None)) demo_request)
     = Some "Basic dXNlcjpwYXNz".
Proof.
  split.
  - exact (proj1 (C2_authorization_token (demo_platform (mkResponse 200 "ok"))
                    (Config.mk "user" "pass" None))).
  - refine (proj1 (proj2 (proj2 (C2_authorization_token
              (demo_platform (mkResponse 200 "ok"))
              (Config.mk "user" "pass" None)))) demo_request [] _ _ _).
    + reflexivity.
    + constructor.
Defined.

(** A descriptor without headers of its own is always sent. *)
Lemma request_sends (pf : Platform) (this : RESTClient.t) (req : RequestData.t)
    (net : Net) (headers : gmap string string) :
  Headers_new (RESTClient.header_record this (RequestData.headers req))
    = Normal headers ->
  RESTClient.request pf this req net
    = (then_ (fetch_settles pf net (issued_call this req)) classify,
       net ++ [issued_call this req])
  /\ RequestInit.headers (fetch_init (issued_call this req)) = headers.
Proof.
  intros Hnew. rewrite request_unfold, Hnew. split; [done|].
  unfold issued_call, accepted_headers. cbn. by rewrite Hnew.
Qed.

Lemma accepted_no_headers (this : RESTClient.t) :
  Headers_new (RESTClient.header_record this None)
    = Normal (list_to_map (RESTClient.header_record this None)).
Proof.
  apply accepted_plain; cbn.
  - constructor.
  - unfold distinct_names. constructor.
  - intros name Hin. by apply elem_of_nil in Hin.
Qed.

(** C3. A client built with [test = true] sends every request to the
    staging host, one built with [test] false or absent to the production
    host; the URL of a call the request layer makes is that host, one
    slash, then the path of the descriptor (and a descriptor without
    headers of its own always gives a call); and since the flag is read
    from the client on each request, all the calls of one client go to the
    one host. *)
Theorem C3_environment_host (pf : Platform) (this : RESTClient.t)
    (host : string) :
  (Config.test (RESTClient.config this) = Some true
     /\ host = "https://api.staging.budbee.com")
  \/ ((Config.test (RESTClient.config this) = Some false
        \/ Config.test (RESTClient.config this) = None)
      /\ host = "https://api.budbee.com") ->
  (forall (req : RequestData.t) (net : Net) (call : FetchCall),
     (RESTClient.request pf this req net).2 = net ++ [call] ->
     fetch_url call = host +:+ "/" +:+ RequestData.path req)
  /\ (forall (req : RequestData.t) (net : Net),
        RequestData.headers req = None ->
        exists call : FetchCall,
          (RESTClient.request pf this req net).2 = net ++ [call]
          /\ fetch_url call = host +:+ "/" +:+ RequestData.path req)
  /\ (forall (ops : list Operation) (net : Net),
        exists new : Net,
          (run pf this ops net).2 = net ++ new
          /\ Forall (fun call => exists path : string,
               fetch_url call = host +:+ "/" +:+ path) new).
Proof.
  intros Hhost.
  assert (Hof : host_of this = host).
  { unfold host_of.
    destruct Hhost as [[-> ->] | [[-> | ->] ->]]; reflexivity. }
  rewrite <- Hof. split; [|split].
  - intros req net call Hcall. by apply request_calls in Hcall as [-> _].
  - intros req net Hnone. exists (issued_call this req).
    destruct (request_sends pf this req net _
                (eq_ind_r (fun hs => Headers_new (RESTClient.header_record this hs) = _)
                   (accepted_no_headers this) Hnone)) as [-> _].
    done.
  - intros ops net.
    destruct (run_issues pf this ops net) as (new & Hnew & Hall).
    exists new. split; [done|].
    eapply Forall_impl; [exact Hall|].
    intros call (op & req & _ & -> & _). by exists (RequestData.path req).
Qed.

Lemma C3_environment_host_witness :
  exists call : FetchCall,
    (RESTClient.request (demo_platform (mkResponse 200 "ok"))
       (RESTClient.new (Config.mk "user" "pass" (Some true)))
       demo_request []).2 = [] ++ [call]
    /\ fetch_url call
         = "https://api.staging.budbee.com" +:+ "/"
             +:+ RequestData.path demo_request.
Proof.
  refine (proj1 (proj2 (C3_environment_host (demo_platform (mkResponse 200 "ok"))
            (RESTClient.new (Config.mk "user" "pass" (Some true)))
            "https://api.staging.budbee.com" _)) demo_request [] eq_refl).
  left. split; reflexivity.
Defined.

(** Absent flag: production. *)
Example production_url :
  fetch_url <$> (Client.warehouses (demo_platform (mkResponse 200 "[]"))
                   demo_client []).2
  = ["https://api.budbee.com/users/collection-points"].
Proof. reflexivity. Qed.



(** The three cases on a client: a header of the caller beside the one of
    the layer; Authorization given in another case joined to the one of the
    layer under the name as the layer spells it; a name that is no token
    refused before anything is sent. *)
Example header_merge_known :
  let pf := demo_platform (mkResponse 200 "ok") in
  let this := RESTClient.new (Config.mk "user" "pass" None) in
  let req hs := RequestData.mk None None (Some hs) "GET" "x" None in
  (map_to_list ∘ RequestInit.headers ∘ fetch_init
     <$> (RESTClient.request pf this (req [("X-Trace", "1")]) []).2)
    = [[("Authorization", "Basic dXNlcjpwYXNz"); ("X-Trace", "1")]]
  /\ (map_to_list ∘ RequestInit.headers ∘ fetch_init
        <$> (RESTClient.request pf this (req [("authorization", "Bearer x")]) []).2)
       = [[("Authorization", "Basic dXNlcjpwYXNz, Bearer x")]]
  /\ RESTClient.request pf this (req [("Authorization", "Bearer x")]) []
       = (then_ (fetch_settles pf []
                   (mkFetchCall "https://api.budbee.com/x"
                      (RequestInit.mk None {[ "Authorization" := "Bearer x" ]}
                         "GET" None))) classify,
          [mkFetchCall "https://api.budbee.com/x"
             (RequestInit.mk None {[ "Authorization" := "Bearer x" ]} "GET" None)])
  /\ RESTClient.request pf this (req [("bad name", "v")]) []
       = (Rejected (ThrownError "TypeError"), []).
Proof. vm_compute. split_and!; reflexivity. Qed.

(** C10. The [auth] field of a descriptor is never read: two descriptors
    that differ in it alone give the same outcome and the same call, and a
    call that is made carries an Authorization header whether the field is
    true, false or absent: the Basic token of the client when the
    descriptor names no header like it. A descriptor without headers
    always gives a call. *)
Theorem C10_auth_field_ignored (pf : Platform) (this : RESTClient.t)
    (a1 a2 : option bool) (body : option string)
    (headers : option StringRecord.t) (method path : string)
    (signal : option AbortSignal) (net : Net) :
  RESTClient.request pf this
      (RequestData.mk a1 body headers method path signal) net
    = RESTClient.request pf this
        (RequestData.mk a2 body headers method path signal) net
  /\ (forall call : FetchCall,
        (RESTClient.request pf this
           (RequestData.mk a1 body headers method path signal) net).2
          = net ++ [call] ->
        is_Some (header "Authorization" call)
        /\ (Forall (fun kv => Headers.same_name "Authorization" kv.1 = false)
              (default [] headers) ->
            header "Authorization" call
              = Some ("Basic " +:+ RESTClient.auth this)))
  /\ (headers = None ->
      exists call : FetchCall,
        (RESTClient.request pf this
           (RequestData.mk a1 body headers method path signal) net).2
          = net ++ [call]).
Proof.
  split; [by rewrite !request_unfold|]. split.
  - intros call Hcall. apply request_call_headers in Hcall. cbn in Hcall.
    split.
    + by apply (accepted_authorization this headers).
    + by apply (accepted_basic this headers).
  - intros ->. eexists.
    by destruct (request_sends pf this
                   (RequestData.mk a1 body None method path signal) net _
                   (accepted_no_headers this)) as [-> _].
Qed.

Lemma C10_auth_field_ignored_witness :
  is_Some (header "Authorization" (issued_call demo_client demo_request))
  /\ header "Authorization" (issued_call demo_client demo_request)
     = Some ("Basic " +:+ RESTClient.auth demo_client).
Proof.
  destruct (proj1 (proj2 (C10_auth_field_ignored
              (demo_platform (mkResponse 200 "ok")) demo_client
              (Some true) None None None "GET" "users/collection-points" None []))
              (issued_call demo_client demo_request) eq_refl) as [Hsome Hbasic].
  split; [exact Hsome | apply Hbasic; constructor].
Defined.

(** ** Calendar dates and their rendering *)

Lemma all_from_spec (n : nat) (z : Z) (p : Z -> bool) :
  all_from n z p = true -> forall k : Z, z <= k < z + Z.of_nat n -> p k = true.
Proof.
  revert z. induction n as [|n IH]; intros z Hall k Hk; [lia|].
  cbn [all_from] in Hall. apply andb_true_iff in Hall as [Hz Hrest].
  destruct (decide (k = z)) as [->|Hne]; [done|].
  apply (IH (z + 1)); [done | lia].
Qed.


















(** ** Endpoint methods *)

(** The one call of a method, read back from the log. *)
Lemma perform_call (pf : Platform) (this : Client.t) (op : Operation)
    (net : Net) (call : FetchCall) :
  (perform pf this op net).2 = net ++ [call] ->
  exists req : RequestData.t,
    call = issued_call this req
    /\ RequestData.headers req = Some [("Content-Type", media_type op)].
Proof.
  intros Hcall.
  destruct (perform_issues pf this op net) as [Hsame | (req & Hone & Hh)].
  - rewrite Hsame in Hcall. rewrite <- (app_nil_r net) in Hcall at 1.
    by apply app_inv_head in Hcall.
  - rewrite Hone in Hcall. apply app_inv_head in Hcall.
    exists req. split; [congruence | done].
Qed.




(** The two calls of the specification, run on the demonstration platform. *)
Example deliveryWindows_days :
  fetch_url <$> (Client.deliveryWindows (demo_platform (mkResponse 200 "[]"))
                   demo_client
                   (Num (SafeInteger 11122 I)) (Days (SafeInteger 7 I))
                   (Some "SE") []).2
  = ["https://api.budbee.com/intervals/SE/11122/7"].
Proof. reflexivity. Qed.

Example deliveryWindows_between :
  fetch_url <$> (Client.deliveryWindows (demo_platform (mkResponse 200 "[]"))
                   demo_client (Str "11122")
                   (Between (mkBetween (TimeValue 1704067200000)
                                       (TimeValue 1704585600000)))
                   None []).2
  = ["https://api.budbee.com/intervals/SE/11122/2024-01-01/2024-01-07"].
Proof. reflexivity. Qed.

(** A number that is no safe integer is not written digit by digit: two to
    the power 60 and ten to the power 21, as JavaScript prints them. *)
Example deliveryWindows_large_numbers :
  fetch_url <$> (Client.deliveryWindows (demo_platform (mkResponse 200 "[]"))
                   demo_client (Str "11122")
                   (Days (OtherNumber "1152921504606847000")) None []).2
  = ["https://api.budbee.com/intervals/SE/11122/1152921504606847000"]
  /\ fetch_url <$> (Client.deliveryWindows (demo_platform (mkResponse 200 "[]"))
                      demo_client (Str "11122")
                      (Days (OtherNumber "1e+21")) None []).2
     = ["https://api.budbee.com/intervals/SE/11122/1e+21"].
Proof. split; reflexivity. Qed.

(** An invalid date makes the call throw before any request is made. *)
Lemma deliveryWindows_invalid_date (pf : Platform) (this : Client.t)
    (postalCode : StringOrNumber) (countryCode : option string)
    (d : Date) (net : Net) :
  Client.deliveryWindows pf this postalCode
      (Between (mkBetween InvalidDate d)) countryCode net
    = (Throw (ThrownError "RangeError"), net).
Proof. reflexivity. Qed.

(** ** Objects *)

Lemma obj_get_set_eq (k : string) (v : JsValue) (o : JsObject) :
  obj_get k (obj_set k v o) = Some v.
Proof.
  induction o as [|[k' v'] rest IH]; cbn.
  - by rewrite decide_True.
  - destruct (decide (k' = k)) as [->|Hne]; cbn.
    + by rewrite decide_True.
    + by rewrite decide_False.
Qed.

Lemma obj_get_set_ne (k k' : string) (v : JsValue) (o : JsObject) :
  k <> k' -> obj_get k' (obj_set k v o) = obj_get k' o.
Proof.
  intros Hne. induction o as [|[k0 v0] rest IH]; cbn.
  - by rewrite decide_False.
  - destruct (decide (k0 = k)) as [->|Hk0]; cbn.
    + by rewrite !decide_False.
    + by rewrite IH.
Qed.

Lemma obj_set_fresh (k : string) (v : JsValue) (o : JsObject) :
  k ∉ o.*1 -> obj_set k v o = o ++ [(k, v)].
Proof.
  induction o as [|[k' v'] rest IH]; cbn; [done|].
  intros Hfresh. apply not_elem_of_cons in Hfresh as [Hne Hrest].
  rewrite decide_False by done. by rewrite IH.
Qed.

(** Copying the properties of an object into a fresh one gives the same
    properties in the same order. *)
Lemma obj_spread_onto (src target : JsObject) :
  NoDup ((target ++ src).*1) -> obj_spread src target = target ++ src.
Proof.
  revert target. induction src as [|[k v] rest IH]; intros target Hnd.
  - by rewrite app_nil_r.
  - unfold obj_spread. cbn [foldl fst snd].
    assert (Hfresh : k ∉ target.*1).
    { rewrite fmap_app in Hnd. apply NoDup_app in Hnd as (_ & Hdisj & _).
      intros Hin. apply (Hdisj k Hin). cbn. apply elem_of_cons. by left. }
    rewrite obj_set_fresh by done.
    fold (obj_spread rest (target ++ [(k, v)])).
    rewrite IH; rewrite <- app_assoc; done.
Qed.

Lemma obj_spread_copy (o : JsObject) : NoDup (o.*1) -> obj_spread o [] = o.
Proof. intros Hnd. by rewrite obj_spread_onto. Qed.

(** C6. For every locker id and every order payload (an object: its
    property names are distinct), [createBoxOrder] posts to
    multiple/orders, and the body is the JSON text of the payload with
    productCodes set to ["DLVBOX"] and boxDelivery set to
    {selectedBox: lockerId}: these two properties have those values, and
    every other property is the one of the payload. *)
Theorem C6_createBoxOrder_body (pf : Platform) (this : Client.t)
    (lockerId : LockerId) (delivery : JsObject) (net : Net) :
  NoDup (delivery.*1) ->
  exists (call : FetchCall) (merged : JsObject),
    (Client.createBoxOrder pf this lockerId delivery net).2 = net ++ [call]
    /\ RequestInit.method (fetch_init call) = "POST"
    /\ fetch_url call = host_of this +:+ "/" +:+ "multiple/orders"
    /\ RequestInit.body (fetch_init call)
         = Some (JSON_stringify pf (JObject merged))
    /\ merged
         = obj_set "boxDelivery"
             (JObject [("selectedBox", LockerId_value lockerId)])
             (obj_set "productCodes" (JArray [JString "DLVBOX"]) delivery)
    /\ obj_get "productCodes" merged = Some (JArray [JString "DLVBOX"])
    /\ obj_get "boxDelivery" merged
         = Some (JObject [("selectedBox", LockerId_value lockerId)])
    /\ (forall k : string,
          k <> "productCodes" -> k <> "boxDelivery" ->
          obj_get k merged = obj_get k delivery).
Proof.
  intros Hnd. eexists. eexists. run_method.
  split; [reflexivity|]. cbn.
  split; [reflexivity|]. split; [reflexivity|]. split; [reflexivity|].
  unfold Client.box_order_payload. rewrite (obj_spread_copy delivery Hnd).
  split; [reflexivity|]. split; [|split].
  - rewrite obj_get_set_ne by done. apply obj_get_set_eq.
  - apply obj_get_set_eq.
  - intros k Hp Hb. by rewrite !obj_get_set_ne.
Qed.

Lemma C6_createBoxOrder_body_witness :
  exists (call : FetchCall) (merged : JsObject),
    (Client.createBoxOrder (demo_platform (mkResponse 200 "{}")) demo_client
       (LockerIdString "L1") demo_payload []).2 = [] ++ [call]
    /\ RequestInit.method (fetch_init call) = "POST"
    /\ fetch_url call = "https://api.budbee.com/multiple/orders"
    /\ RequestInit.body (fetch_init call)
         = Some (JSON_stringify (demo_platform (mkResponse 200 "{}"))
                   (JObject merged))
    /\ merged
         = [("collectionId", JNumber 7%Q);
            ("productCodes", JArray [JString "DLVBOX"]);
            ("requireSignature", JBool false);
            ("boxDelivery", JObject [("selectedBox", JString "L1")])]
    /\ obj_get "productCodes" merged = Some (JArray [JString "DLVBOX"])
    /\ obj_get "boxDelivery" merged
         = Some (JObject [("selectedBox", JString "L1")])
    /\ (forall k : string,
          k <> "productCodes" -> k <> "boxDelivery" ->
          obj_get k merged = obj_get k demo_payload).
Proof.
  refine (C6_createBoxOrder_body (demo_platform (mkResponse 200 "{}"))
            demo_client (LockerIdString "L1") demo_payload [] _).
  apply (bool_decide_unpack _). vm_compute. exact I.
Defined.




(** A method without envelope resolves to the parsed body as it is. *)
Lemma locker_not_unwrapped (pf : Platform) (this : Client.t)
    (lockerId : string) (net : Net) (res : Response) (v : JsValue) :
  (forall call, fetch_settles pf net call = Resolved res) ->
  200 <= status res <= 399 ->
  JSON_parse pf (body_text res) = Some v ->
  (Client.locker pf this lockerId net).1 = Resolved v.
Proof.
  intros Hres Hok Hparse. run_method. rewrite Hres. cbn [then_].
  unfold classify. rewrite bool_decide_eq_true_2 by done. cbn [then_].
  unfold Response_json. by rewrite Hparse.
Qed.

(** C8, as stated, fails: [order] and [cancelOrder] are two methods, and
    their calls carry the same media type. *)
Lemma C8_media_type_not_unique :
  method_name (GetOrder "1") <> method_name (CancelOrder "1")
  /\ exists c1 c2 : FetchCall,
       (perform (demo_platform (mkResponse 200 "{}")) demo_client
          (GetOrder "1") []).2 = [c1]
       /\ (perform (demo_platform (mkResponse 200 "{}")) demo_client
             (CancelOrder "1") []).2 = [c2]
       /\ header "Content-Type" c1
            = Some "application/vnd.budbee.multiple.orders-v1+json"
       /\ header "Content-Type" c2
            = Some "application/vnd.budbee.multiple.orders-v1+json".
Proof.
  split; [discriminate|].
  eexists. eexists. split; [reflexivity|]. split; [reflexivity|].
  split; vm_compute; reflexivity.
Qed.

(** C8, amended. Every call of an endpoint method carries, besides the
    authorization header of the layer, exactly one header, Content-Type,
    whose value is the vendor media type of the resource family and
    version of the method, application/vnd.budbee.FAMILY-vN+json with N
    equal to 1 or 2; the string is fixed by family and version, so methods
    of one family and version send the same one. *)
Theorem C8_content_type (pf : Platform) (this : Client.t) (op : Operation)
    (net : Net) (call : FetchCall) :
  (perform pf this op net).2 = net ++ [call] ->
  RequestInit.headers (fetch_init call)
    = {[ "Content-Type" := media_type op ]}
        ∪ {[ "Authorization" := "Basic " +:+ RESTClient.auth this ]}
  /\ size (RequestInit.headers (fetch_init call)) = 2%nat
  /\ header "Content-Type" call
       = Some ("application/vnd.budbee." +:+ resource_family op +:+ "-v"
                 +:+ pretty (media_version op) +:+ "+json")
  /\ (media_version op = 1 \/ media_version op = 2)
  /\ (forall (op' : Operation) (net' : Net) (call' : FetchCall),
        (perform pf this op' net').2 = net' ++ [call'] ->
        resource_family op' = resource_family op ->
        media_version op' = media_version op ->
        header "Content-Type" call' = header "Content-Type" call).
Proof.
  assert (Hct : forall op0 net0 call0,
    (perform pf this op0 net0).2 = net0 ++ [call0] ->
    RequestInit.headers (fetch_init call0)
      = {[ "Content-Type" := media_type op0 ]}
          ∪ {[ "Authorization" := "Basic " +:+ RESTClient.auth this ]}).
  { intros op0 net0 call0 Hcall.
    destruct (perform_call pf this op0 net0 call0 Hcall) as (req & -> & Hh).
    apply endpoint_headers; [done | apply media_type_plain]. }
  assert (Hlook : forall op0 net0 call0,
    (perform pf this op0 net0).2 = net0 ++ [call0] ->
    header "Content-Type" call0 = Some (media_type op0)).
  { intros op0 net0 call0 Hcall. unfold header. rewrite (Hct _ _ _ Hcall).
    apply lookup_union_Some_l, lookup_singleton_eq. }
  intros Hcall. split; [by apply Hct with net|]. split; [|split; [|split]].
  - rewrite (Hct _ _ _ Hcall).
    rewrite map_size_disj_union, !map_size_singleton; [done|].
    by apply map_disjoint_singleton_l_2, lookup_singleton_ne.
  - by apply Hlook with net.
  - destruct op; cbn; auto.
  - intros op' net' call' Hcall' Hfam Hver.
    rewrite (Hlook _ _ _ Hcall), (Hlook _ _ _ Hcall').
    unfold media_type. by rewrite Hfam, Hver.
Qed.

Lemma C8_content_type_witness :
  header "Content-Type"
    (issued_call demo_client
       (RequestData.mk None None
          (Some [("Content-Type", "application/vnd.budbee.boxes-v1+json")])
          "GET" "boxes/all/SE" None))
  = Some "application/vnd.budbee.boxes-v1+json".
Proof.
  refine (proj1 (proj2 (proj2 (C8_content_type
            (demo_platform (mkResponse 200 lockers_text)) demo_client
            (Lockers None) [] _ _)))).
  reflexivity.
Defined.

(** C9. [cancelOrder] sends DELETE to multiple/orders/id and
    [removeParcel] sends DELETE to multiple/orders/id/parcels/parcelId,
    the parcel id written as JavaScript writes the number (in plain
    decimal when it is a safe integer); each hands back the outcome of the request layer untouched, which does
    not depend on [JSON.parse]: with a success status it resolves to the
    response whatever the body holds, empty or not JSON included. *)
Theorem C9_delete_without_parse (pf : Platform) (this : Client.t) (net : Net) :
  (forall orderId : string,
     exists call : FetchCall,
       Client.cancelOrder pf this orderId net
         = (then_ (fetch_settles pf net call) classify, net ++ [call])
       /\ RequestInit.method (fetch_init call) = "DELETE"
       /\ fetch_url call = host_of this +:+ "/" +:+ "multiple/orders/" +:+ orderId
       /\ (forall parse : string -> option JsValue,
             Client.cancelOrder (with_JSON_parse parse pf) this orderId net
               = Client.cancelOrder pf this orderId net)
       /\ (forall res : Response,
             fetch_settles pf net call = Resolved res ->
             200 <= status res <= 399 ->
             (Client.cancelOrder pf this orderId net).1 = Resolved res))
  /\ (forall (orderId : string) (parcelId : JsNumber),
     exists call : FetchCall,
       Client.removeParcel pf this orderId parcelId net
         = (then_ (fetch_settles pf net call) classify, net ++ [call])
       /\ RequestInit.method (fetch_init call) = "DELETE"
       /\ fetch_url call
            = host_of this +:+ "/" +:+ "multiple/orders/" +:+ orderId
                +:+ "/parcels/" +:+ number_text parcelId
       /\ (forall parse : string -> option JsValue,
             Client.removeParcel (with_JSON_parse parse pf) this orderId
                 parcelId net
               = Client.removeParcel pf this orderId parcelId net)
       /\ (forall res : Response,
             fetch_settles pf net call = Resolved res ->
             200 <= status res <= 399 ->
             (Client.removeParcel pf this orderId parcelId net).1
               = Resolved res)).
Proof.
  split; intros; eexists; run_method;
    (split; [reflexivity|]); (split; [reflexivity|]); (split; [reflexivity|]);
    (split; [intros parse; by run_method|]);
    intros res Hres Hok; rewrite Hres; cbn [fst then_]; unfold classify;
    by rewrite bool_decide_eq_true_2.
Qed.

Lemma C9_delete_without_parse_witness :
  (Client.cancelOrder (demo_platform (mkResponse 204 "")) demo_client "42" []).1
  = Resolved (mkResponse 204 "")
  /\ JSON_parse (demo_platform (mkResponse 204 "")) "" = None.
Proof.
  split; [|reflexivity].
  destruct (proj1 (C9_delete_without_parse (demo_platform (mkResponse 204 ""))
                     demo_client []) "42") as (call & Hrun & _ & _ & _ & Hok).
  apply Hok; [reflexivity | cbn; lia].
Defined.

(** By contrast a method that parses fails on such a body. *)
Example order_fails_on_empty_body :
  (Client.order (demo_platform (mkResponse 204 "")) demo_client "42" []).1
  = Rejected (ThrownError "SyntaxError").
Proof. reflexivity. Qed.

(** * Further properties *)


(** The parcel id in the path, for a safe integer. *)
Example removeParcel_known :
  fetch_url <$> (Client.removeParcel (demo_platform (mkResponse 204 ""))
                   demo_client "42" (SafeInteger 7 I) []).2
  = ["https://api.budbee.com/multiple/orders/42/parcels/7"].
Proof. reflexivity. Qed.
(** ** Shape of every method

    Each method builds one descriptor from its arguments alone, hands it to
    the request layer and chains its continuation; [deliveryWindows] may
    throw before that. *)

Lemma then_rejected {A B : Type} (e : Thrown) (f : A -> Promise B) :
  then_ (Rejected e) f = Rejected e.
Proof. reflexivity. Qed.

Lemma perform_shape (pf : Platform) (op : Operation) :
  (exists e : Thrown,
     forall (this : Client.t) (net : Net), perform pf this op net = (Throw e, net))
  \/ (exists req : RequestData.t,
        RequestData.headers req = Some [("Content-Type", media_type op)]
        /\ RequestData.method req = verb op
        /\ RequestData.signal req = None
        /\ RequestData.auth req = None
        /\ (is_Some (RequestData.body req)
            <-> verb op = "POST" \/ verb op = "PUT")
        /\ forall (this : Client.t) (net : Net),
             perform pf this op net
               = (Normal (continuation pf op
                            (then_ (fetch_settles pf net (issued_call this req))
                               classify)),
                  net ++ [issued_call this req])).
Proof.
  assert (Hno : forall A : Type, is_Some (@None A) <-> "GET" = "POST" \/ "GET" = "PUT").
  { intros A. split; [by intros [x Hx] | by intros [?|?]]. }
  assert (Hno' : forall A : Type,
            is_Some (@None A) <-> "DELETE" = "POST" \/ "DELETE" = "PUT").
  { intros A. split; [by intros [x Hx] | by intros [?|?]]. }
  destruct op;
    try (right; eexists; split; [|split; [|split; [|split; [|split]]]];
         [| | | | | intros this net; cbn [perform];
                    rewrite ?parsed_run, ?raw_run; run_method; reflexivity];
         [reflexivity | reflexivity | reflexivity | reflexivity |];
         cbn; first [apply Hno | apply Hno' | split; [by left + by right | by eexists] ]).
  cbn [perform]. unfold Client.deliveryWindows.
  destruct (Client.interval_segment pf interval) as [segment|e].
  - right. eexists. split; [|split; [|split; [|split; [|split]]]];
      [| | | | | intros this net; rewrite bind_run; run_method; reflexivity];
      [reflexivity | reflexivity | reflexivity | reflexivity | apply Hno].
  - left. exists e. reflexivity.
Qed.

(** ** The request layer, further *)

(** X1. One request is at most one [fetch]. Either [Headers] refuses the
    header record, and the request fails with its error and nothing is
    sent; or one call is made, which carries the body, the method and the
    signal of the descriptor untouched, and when [fetch] itself fails (no
    network, an abort) the request fails with the same reason. Nothing is
    tried again. A descriptor without headers of its own is always sent. *)
Theorem request_single_call (pf : Platform) (this : RESTClient.t)
    (req : RequestData.t) (net : Net) :
  ((exists e : Thrown,
      Headers_new (RESTClient.header_record this (RequestData.headers req))
        = Throw e
      /\ RESTClient.request pf this req net = (Rejected e, net))
   \/ (exists call : FetchCall,
         (RESTClient.request pf this req net).2 = net ++ [call]
         /\ RequestInit.body (fetch_init call) = RequestData.body req
         /\ RequestInit.method (fetch_init call) = RequestData.method req
         /\ RequestInit.signal (fetch_init call) = RequestData.signal req
         /\ (forall e : Thrown,
               fetch_settles pf net call = Rejected e ->
               (RESTClient.request pf this req net).1 = Rejected e)))
  /\ (RequestData.headers req = None ->
      exists call : FetchCall,
        (RESTClient.request pf this req net).2 = net ++ [call]).
Proof.
  split.
  - rewrite request_unfold.
    destruct (Headers_new _) as [headers|e] eqn:Hnew.
    + right. exists (issued_call this req). cbn [fst snd].
      repeat split. intros e He. by rewrite He.
    + left. by exists e.
  - intros Hnone. exists (issued_call this req).
    rewrite request_unfold, Hnone, accepted_no_headers. done.
Qed.

(** The two cases, run: a descriptor without headers is sent, one whose
    header name is no token is refused. *)
Example single_call_known :
  length (RESTClient.request (demo_platform (mkResponse 200 "ok")) demo_client
            demo_request []).2 = 1%nat
  /\ RESTClient.request (demo_platform (mkResponse 200 "ok")) demo_client
       (RequestData.mk None None (Some [("bad name", "v")]) "GET" "x" None) []
     = (Rejected (ThrownError "TypeError"), []).
Proof. split; reflexivity. Qed.

(** X2. A request that resolves does so with the very response [fetch]
    produced, and that response has a status from 200 to 399; a request
    that fails with a response has a status outside that range or [fetch]
    itself failed with it. *)
Theorem request_outcome_inv (pf : Platform) (this : RESTClient.t)
    (req : RequestData.t) (net : Net) (call : FetchCall) :
  (RESTClient.request pf this req net).2 = net ++ [call] ->
  (forall res : Response,
     (RESTClient.request pf this req net).1 = Resolved res ->
     fetch_settles pf net call = Resolved res /\ 200 <= status res <= 399)
  /\ (forall res : Response,
        (RESTClient.request pf this req net).1 = Rejected (ThrownResponse res) ->
        (fetch_settles pf net call = Resolved res
           /\ ~ (200 <= status res <= 399))
        \/ fetch_settles pf net call = Rejected (ThrownResponse res)).
Proof.
  intros Hcall. apply request_calls in Hcall as [-> ->]. cbn [fst].
  destruct (fetch_settles pf net (issued_call this req)) as [res0|e]; cbn [then_].
  - unfold classify. case_bool_decide as Hok; split; intros res Hres;
      simplify_eq; auto.
  - split; intros res Hres; simplify_eq. by right.
Qed.

Lemma request_outcome_inv_witness :
  fetch_settles (demo_platform (mkResponse 200 "ok")) []
      (issued_call demo_client demo_request) = Resolved (mkResponse 200 "ok")
  /\ 200 <= status (mkResponse 200 "ok") <= 399.
Proof.
  refine (proj1 (request_outcome_inv (demo_platform (mkResponse 200 "ok"))
            demo_client demo_request [] (issued_call demo_client demo_request) _)
            (mkResponse 200 "ok") _); reflexivity.
Defined.

(** The four verb helpers make the same call but for the method. *)
Lemma verb_helpers_call (pf : Platform) (this : RESTClient.t)
    (req : RequestData.omit_method) (net : Net) (m : string) :
  RESTClient.request pf this (RequestData.with_method m req) net
    = match Headers_new
              (RESTClient.header_record this (RequestData.o_headers req)) with
      | Throw e => (Rejected e, net)
      | Normal headers =>
          (then_ (fetch_settles pf net
                    (mkFetchCall (host_of this +:+ "/" +:+ RequestData.o_path req)
                       (RequestInit.mk (RequestData.o_body req) headers m
                          (RequestData.o_signal req)))) classify,
           net ++ [mkFetchCall (host_of this +:+ "/" +:+ RequestData.o_path req)
                     (RequestInit.mk (RequestData.o_body req) headers m
                        (RequestData.o_signal req))])
      end.
Proof.
  rewrite request_unfold. unfold issued_call, accepted_headers. cbn.
  by destruct (Headers_new _).
Qed.
(** ** The endpoint methods, further *)

Lemma run_cons (pf : Platform) (this : Client.t) (op : Operation)
    (rest : list Operation) (net : Net) :
  run pf this (op :: rest) net
    = ((perform pf this op net).1
         :: (run pf this rest (perform pf this op net).2).1,
       (run pf this rest (perform pf this op net).2).2).
Proof. cbn [run]. by rewrite !bind_run. Qed.

(** X3. Every method makes at most one call and never repeats it: the log
    grows by exactly one call when the method returns a promise, and by
    none when it throws; a sequence of [n] method calls makes at most [n]
    requests, appended in order to the calls made before. *)
Theorem perform_call_count (pf : Platform) (this : Client.t) :
  (forall (op : Operation) (net : Net),
     match (perform pf this op net).1 with
     | Normal _ => exists call, (perform pf this op net).2 = net ++ [call]
     | Throw _ => (perform pf this op net).2 = net
     end)
  /\ (forall (ops : list Operation) (net : Net),
        exists new : Net,
          (run pf this ops net).2 = net ++ new
          /\ (length new <= length ops)%nat
          /\ length (run pf this ops net).1 = length ops).
Proof.
  split.
  - intros op net.
    destruct (perform_shape pf op) as [[e He] | (req & _ & _ & _ & _ & _ & Hrun)].
    + by rewrite He.
    + rewrite Hrun. by eexists.
  - intros ops. induction ops as [|op rest IH]; intros net.
    + exists []. by rewrite app_nil_r.
    + rewrite run_cons. cbn [fst snd length].
      destruct (IH (perform pf this op net).2) as (new & Hnew & Hlen & Hres).
      rewrite Hnew, Hres.
      destruct (perform_shape pf op) as [[e He] | (req & _ & _ & _ & _ & _ & Hrun)].
      * rewrite He. exists new. cbn. split_and!; [done | lia | done].
      * rewrite Hrun. cbn [snd]. exists (issued_call this req :: new).
        rewrite <- app_assoc. cbn. split_and!; [done | lia | done].
Qed.

Lemma continuation_rejected (pf : Platform) (op : Operation) (e : Thrown) :
  continuation pf op (Rejected e) = Rejected e.
Proof.
  unfold continuation. destruct (parses_body op), (envelope_field op); reflexivity.
Qed.

(** The outcome of a method that made a call, from how [fetch] settled. *)
Lemma perform_outcome (pf : Platform) (this : Client.t) (op : Operation)
    (net : Net) (call : FetchCall) :
  (perform pf this op net).2 = net ++ [call] ->
  (perform pf this op net).1
    = Normal (continuation pf op (then_ (fetch_settles pf net call) classify)).
Proof.
  intros Hcall.
  destruct (perform_shape pf op) as [[e He] | (req & _ & _ & _ & _ & _ & Hrun)].
  - rewrite He in Hcall. cbn in Hcall. rewrite <- (app_nil_r net) in Hcall at 1.
    by apply app_inv_head in Hcall.
  - rewrite Hrun in Hcall. cbn in Hcall.
    apply app_inv_head in Hcall. injection Hcall as <-. by rewrite Hrun.
Qed.

(** The calls of a method do not depend on [JSON.parse]. *)
Lemma perform_log_parse (pf : Platform) (this : Client.t) (op : Operation)
    (net : Net) (parse : string -> option JsValue) :
  (perform (with_JSON_parse parse pf) this op net).2 = (perform pf this op net).2.
Proof.
  destruct op; cbn [perform]; rewrite ?parsed_run, ?raw_run;
    try (run_method; reflexivity).
  rewrite !bind_run. cbn [snd]. unfold Client.deliveryWindows.
  change (Client.interval_segment (with_JSON_parse parse pf) interval)
    with (Client.interval_segment pf interval).
  destruct (Client.interval_segment pf interval); [|reflexivity].
  by run_method.
Qed.

(** X4. Failures reach the caller of every method untouched: when [fetch]
    fails the method fails with the same reason, and when the server
    answers with a status outside 200 to 399 the method fails with that
    response, whatever [JSON.parse] would make of the body. *)
Theorem endpoint_failure_propagates (pf : Platform) (this : Client.t)
    (op : Operation) (net : Net) (call : FetchCall) :
  (perform pf this op net).2 = net ++ [call] ->
  (forall e : Thrown,
     fetch_settles pf net call = Rejected e ->
     (perform pf this op net).1 = Normal (Rejected e))
  /\ (forall (parse : string -> option JsValue) (res : Response),
        fetch_settles pf net call = Resolved res ->
        ~ (200 <= status res <= 399) ->
        (perform (with_JSON_parse parse pf) this op net).1
          = Normal (Rejected (ThrownResponse res))).
Proof.
  intros Hcall. split.
  - intros e He. rewrite (perform_outcome _ _ _ _ _ Hcall), He. cbn [then_].
    by rewrite continuation_rejected.
  - intros parse res Hres Hko.
    assert (Hcall' : (perform (with_JSON_parse parse pf) this op net).2
                     = net ++ [call]) by by rewrite perform_log_parse.
    rewrite (perform_outcome _ _ _ _ _ Hcall').
    change (fetch_settles (with_JSON_parse parse pf)) with (fetch_settles pf).
    rewrite Hres. cbn [then_]. unfold classify.
    rewrite bool_decide_eq_false_2 by done. by rewrite continuation_rejected.
Qed.

Lemma endpoint_failure_propagates_witness :
  (perform (with_JSON_parse (fun _ => Some JNull)
              (demo_platform (mkResponse 500 lockers_text)))
     demo_client (Lockers None) []).1
  = Normal (Rejected (ThrownResponse (mkResponse 500 lockers_text))).
Proof.
  refine (proj2 (endpoint_failure_propagates
            (demo_platform (mkResponse 500 lockers_text)) demo_client
            (Lockers None) [] _ _) (fun _ => Some JNull)
            (mkResponse 500 lockers_text) _ _);
    [reflexivity | reflexivity | cbn; lia].
Defined.

(** X5. A method that resolves has made exactly one call, the server has
    answered it with a status from 200 to 399, and, for a method that reads
    the body, the body was JSON text; a deletion resolves to that response
    itself. *)
Theorem endpoint_resolved_inv (pf : Platform) (this : Client.t)
    (op : Operation) (net : Net) (r : Result) :
  (perform pf this op net).1 = Normal (Resolved r) ->
  exists (call : FetchCall) (res : Response),
    (perform pf this op net).2 = net ++ [call]
    /\ fetch_settles pf net call = Resolved res
    /\ 200 <= status res <= 399
    /\ (if parses_body op
        then is_Some (JSON_parse pf (body_text res))
        else r = Raw res).
Proof.
  intros Hres.
  destruct (perform_shape pf op) as [[e He] | (req & _ & _ & _ & _ & _ & Hrun)].
  { rewrite He in Hres. discriminate Hres. }
  rewrite Hrun in Hres |- *. cbn [fst snd] in *.
  exists (issued_call this req).
  destruct (fetch_settles pf net (issued_call this req)) as [res|e];
    cbn [then_] in Hres.
  2:{ rewrite continuation_rejected in Hres. discriminate Hres. }
  exists res. split; [done|]. split; [done|].
  unfold classify in Hres. case_bool_decide as Hok.
  2:{ rewrite continuation_rejected in Hres. discriminate Hres. }
  split; [done|].
  unfold continuation in Hres.
  destruct (parses_body op); cbn [then_] in Hres; [|congruence].
  destruct (JSON_parse pf (body_text res)) eqn:Hparse; [by eexists|].
  destruct (envelope_field op); cbn [then_] in Hres;
    unfold Response_json in Hres; rewrite Hparse in Hres; discriminate Hres.
Qed.

Lemma endpoint_resolved_inv_witness :
  exists (call : FetchCall) (res : Response),
    (perform (demo_platform (mkResponse 200 lockers_text)) demo_client
       (Lockers None) []).2 = [] ++ [call]
    /\ fetch_settles (demo_platform (mkResponse 200 lockers_text)) [] call
         = Resolved res
    /\ 200 <= status res <= 399
    /\ is_Some (JSON_parse (demo_platform (mkResponse 200 lockers_text))
                  (body_text res)).
Proof.
  refine (endpoint_resolved_inv (demo_platform (mkResponse 200 lockers_text))
            demo_client (Lockers None) [] (Parsed (JArray [])) _).
  reflexivity.
Defined.

(** X6. Every method but the two deletions reads the body as JSON: on a
    success status with a body that is not JSON text it fails with the
    [SyntaxError] of the parser, and with a body that is JSON it resolves
    to the parsed value as it is, unless the method takes a field out of
    it. *)
Theorem endpoint_parses_body (pf : Platform) (this : Client.t)
    (op : Operation) (net : Net) (call : FetchCall) (res : Response) :
  parses_body op = true ->
  (perform pf this op net).2 = net ++ [call] ->
  fetch_settles pf net call = Resolved res ->
  200 <= status res <= 399 ->
  (JSON_parse pf (body_text res) = None ->
     (perform pf this op net).1 = Normal (Rejected (ThrownError "SyntaxError")))
  /\ (forall v : JsValue,
        JSON_parse pf (body_text res) = Some v ->
        envelope_field op = None ->
        (perform pf this op net).1 = Normal (Resolved (Parsed v))).
Proof.
  intros Hparses Hcall Hres Hok.
  rewrite (perform_outcome _ _ _ _ _ Hcall), Hres. cbn [then_].
  unfold classify. rewrite bool_decide_eq_true_2 by done.
  unfold continuation. rewrite Hparses. split.
  - intros Hnone.
    destruct (envelope_field op); cbn [then_]; unfold Response_json;
      by rewrite Hnone.
  - intros v Hv ->. cbn [then_]. unfold Response_json. by rewrite Hv.
Qed.

Lemma endpoint_parses_body_witness :
  (perform (demo_platform (mkResponse 200 "<html>")) demo_client
     (GetOrder "42") []).1
  = Normal (Rejected (ThrownError "SyntaxError")).
Proof.
  refine (proj1 (endpoint_parses_body (demo_platform (mkResponse 200 "<html>"))
            demo_client (GetOrder "42") [] _ (mkResponse 200 "<html>")
            _ _ _ _) _);
    [reflexivity | reflexivity | reflexivity | cbn; lia | reflexivity].
Defined.

(** X7. The four methods that take a field out of the body read it as a
    property: a body that parses to [null] makes them fail with a
    [TypeError]; an object without the property, and any array, string,
    number or boolean, makes them resolve to [undefined]; the property of
    an object is handed back even when the object has other properties. *)
Theorem envelope_edge_cases (pf : Platform) (this : Client.t)
    (op : Operation) (field : string) (net : Net) (call : FetchCall)
    (res : Response) (v : JsValue) :
  envelope_field op = Some field ->
  (perform pf this op net).2 = net ++ [call] ->
  fetch_settles pf net call = Resolved res ->
  200 <= status res <= 399 ->
  JSON_parse pf (body_text res) = Some v ->
  (perform pf this op net).1
  = Normal
      match v with
      | JNull | JUndefined => Rejected (ThrownError "TypeError")
      | JObject o =>
          match obj_get field o with
          | Some x => Resolved (Parsed x)
          | None => Resolved (Parsed JUndefined)
          end
      | _ => Resolved (Parsed JUndefined)
      end.
Proof.
  intros Hfield Hcall Hres Hok Hparse.
  rewrite (perform_outcome _ _ _ _ _ Hcall), Hres. cbn [then_].
  unfold classify. rewrite bool_decide_eq_true_2 by done.
  unfold continuation. rewrite Hfield.
  assert (Hp : parses_body op = true) by (by destruct op).
  rewrite Hp. cbn [then_]. unfold Response_json. rewrite Hparse. cbn [then_].
  destruct v as [| | | | | |o]; try reflexivity.
  cbn. by destruct (obj_get field o).
Qed.

Lemma envelope_edge_cases_witness :
  (perform (with_JSON_parse (fun _ => Some JNull)
              (demo_platform (mkResponse 200 "null")))
     demo_client (OrderTracker "42") []).1
  = Normal (Rejected (ThrownError "TypeError")).
Proof.
  refine (envelope_edge_cases
            (with_JSON_parse (fun _ => Some JNull)
               (demo_platform (mkResponse 200 "null")))
            demo_client (OrderTracker "42") "url" [] _ (mkResponse 200 "null")
            JNull _ _ _ _ _);
    [reflexivity | reflexivity | reflexivity | cbn; lia | reflexivity].
Defined.

(** X8. Reads and deletions never send a body and creations and updates
    always do; every call has the verb of its method, one of GET, POST, PUT
    and DELETE; and no method passes a cancellation signal. *)
Theorem endpoint_verb_body_signal (pf : Platform) (this : Client.t)
    (op : Operation) (net : Net) (call : FetchCall) :
  (perform pf this op net).2 = net ++ [call] ->
  RequestInit.method (fetch_init call) = verb op
  /\ verb op ∈ ["GET"; "POST"; "PUT"; "DELETE"]
  /\ (RequestInit.body (fetch_init call) = None
      <-> verb op = "GET" \/ verb op = "DELETE")
  /\ RequestInit.signal (fetch_init call) = None.
Proof.
  intros Hcall.
  destruct (perform_shape pf op)
    as [[e He] | (req & _ & Hverb & Hsig & _ & Hbody & Hrun)].
  { rewrite He in Hcall. cbn in Hcall. rewrite <- (app_nil_r net) in Hcall at 1.
    by apply app_inv_head in Hcall. }
  rewrite Hrun in Hcall. cbn in Hcall.
  apply app_inv_head in Hcall. injection Hcall as <-. cbn.
  split; [done|]. split; [destruct op; cbn; rewrite !elem_of_cons; auto 10|]. split; [|done].
  destruct (RequestData.body req) as [b|].
  - split; [done|]. intros Hv.
    destruct Hbody as [Hb _]. destruct (Hb (ltac:(by eexists))) as [Hp|Hp];
      rewrite Hp in Hv; by destruct Hv.
  - split; [|done]. intros _.
    assert (Hnot : ~ (verb op = "POST" \/ verb op = "PUT")).
    { intros Hv. apply Hbody in Hv. by destruct Hv. }
    destruct op; cbn in *; auto; exfalso; apply Hnot; auto.
Qed.

Lemma endpoint_verb_body_signal_witness :
  RequestInit.method
    (fetch_init (issued_call demo_client
       (RequestData.mk None None
          (Some [("Content-Type",
                     "application/vnd.budbee.multiple.orders-v1+json")])
          "DELETE" "multiple/orders/42" None)))
  = verb (CancelOrder "42").
Proof.
  refine (proj1 (endpoint_verb_body_signal (demo_platform (mkResponse 204 ""))
            demo_client (CancelOrder "42") [] _ _)).
  reflexivity.
Defined.

(** X9. The country code is optional in five methods, and leaving it out
    is the same as passing SE: the same call and the same outcome. *)
Theorem default_country_code (pf : Platform) (this : Client.t) (net : Net) :
  (forall postalCode : StringOrNumber,
     Client.warehouseInRegion pf this postalCode None net
       = Client.warehouseInRegion pf this postalCode (Some "SE") net)
  /\ Client.postalCodes pf this None net
       = Client.postalCodes pf this (Some "SE") net
  /\ (forall (postalCode : StringOrNumber) (interval : IntervalArg),
        Client.deliveryWindows pf this postalCode interval None net
          = Client.deliveryWindows pf this postalCode interval (Some "SE") net)
  /\ Client.lockers pf this None net = Client.lockers pf this (Some "SE") net
  /\ (forall postalCode : string,
        Client.lockersInRegion pf this postalCode None net
          = Client.lockersInRegion pf this postalCode (Some "SE") net)
  /\ (exists call : FetchCall,
        (Client.lockers pf this None net).2 = net ++ [call]
        /\ fetch_url call = host_of this +:+ "/boxes/all/SE").
Proof.
  split_and!; try done.
  eexists. run_method. split; reflexivity.
Qed.

(** X10. Arguments are put into the path as they are, with no escaping, so
    an identifier that holds a slash reaches another resource:
    [cancelOrder] on an order id that ends in /parcels/n is [removeParcel]
    of parcel n, [lockers] of a country is [locker] of all/country followed
    by the read of the lockers property, and [orderTracker] is [order] on
    the id followed by /tracking-url and the read of the url property. A
    numeric postal code and the text JavaScript writes for the number, its
    decimal text when it is a safe integer, give the same request. *)
Theorem identifiers_interpolated_verbatim (pf : Platform) (this : Client.t)
    (net : Net) :
  (forall (orderId : string) (parcelId : JsNumber),
     Client.cancelOrder pf this
         (orderId +:+ "/parcels/" +:+ number_text parcelId) net
       = Client.removeParcel pf this orderId parcelId net)
  /\ (forall countryCode : string,
        Client.lockers pf this (Some countryCode) net
          = ((then_ (Client.locker pf this ("all/" +:+ countryCode) net).1
                (js_get "lockers")),
             (Client.locker pf this ("all/" +:+ countryCode) net).2))
  /\ (forall orderId : string,
        Client.orderTracker pf this orderId net
          = ((then_ (Client.order pf this (orderId +:+ "/tracking-url") net).1
                (js_get "url")),
             (Client.order pf this (orderId +:+ "/tracking-url") net).2))
  /\ (forall (x : JsNumber) (countryCode : option string)
        (interval : IntervalArg),
        Client.warehouseInRegion pf this (Num x) countryCode net
          = Client.warehouseInRegion pf this (Str (number_text x)) countryCode net
        /\ Client.deliveryWindows pf this (Num x) interval countryCode net
          = Client.deliveryWindows pf this (Str (number_text x)) interval
              countryCode net)
  /\ (forall (n : Z) (safe : Is_true (Z.abs n <=? MAX_SAFE_INTEGER))
        (countryCode : option string) (interval : IntervalArg),
        Client.warehouseInRegion pf this (Num (SafeInteger n safe)) countryCode net
          = Client.warehouseInRegion pf this (Str (pretty n)) countryCode net
        /\ Client.deliveryWindows pf this (Num (SafeInteger n safe)) interval
            countryCode net
          = Client.deliveryWindows pf this (Str (pretty n)) interval
              countryCode net).
Proof.
  split_and!; intros; by run_method.
Qed.
(** ** Objects, further *)

Lemma obj_set_set (k : string) (v1 v2 : JsValue) (o : JsObject) :
  obj_set k v2 (obj_set k v1 o) = obj_set k v2 o.
Proof.
  induction o as [|[k' v'] rest IH]; cbn.
  - by rewrite decide_True.
  - destruct (decide (k' = k)) as [->|Hne]; cbn.
    + by rewrite decide_True.
    + rewrite decide_False by done. by rewrite IH.
Qed.

Lemma obj_set_id (k : string) (v : JsValue) (o : JsObject) :
  obj_get k o = Some v -> obj_set k v o = o.
Proof.
  induction o as [|[k' v'] rest IH]; cbn; [done|].
  destruct (decide (k' = k)) as [->|Hne]; [congruence|].
  intros Hget. by rewrite IH.
Qed.

(** Writing a property keeps the names in place and adds a new name last. *)
Lemma obj_set_keys (k : string) (v : JsValue) (o : JsObject) :
  (obj_set k v o).*1 = if decide (k ∈ o.*1) then o.*1 else o.*1 ++ [k].
Proof.
  induction o as [|[k' v'] rest IH]; cbn.
  - rewrite decide_False; [done | apply not_elem_of_nil].
  - destruct (decide (k' = k)) as [->|Hne]; cbn.
    + rewrite decide_True; [done | apply elem_of_cons; by left].
    + rewrite IH. destruct (decide (k ∈ rest.*1)) as [Hin|Hout].
      * rewrite decide_True; [done | apply elem_of_cons; by right].
      * rewrite decide_False; [done|].
        intros [->|Hin]%elem_of_cons; done.
Qed.

Lemma obj_set_NoDup (k : string) (v : JsValue) (o : JsObject) :
  NoDup (o.*1) -> NoDup ((obj_set k v o).*1).
Proof.
  intros Hnd. rewrite obj_set_keys. case_decide as Hin; [done|].
  apply NoDup_app. split_and!; [done | | apply NoDup_singleton].
  intros x Hx ->%list_elem_of_singleton. done.
Qed.

Ltac subset_of_added :=
  let x := fresh "x" in
  let Hx := fresh "Hx" in
  intros x Hx;
  repeat (apply elem_of_cons in Hx as [->|Hx]; [rewrite !elem_of_cons; auto|]);
  by apply elem_of_nil in Hx.

(** X11. [createBoxOrder] is [createOrder] on the merged payload, and the
    merge is well behaved on an object: it keeps the property names of the
    payload in their order and adds at most productCodes and boxDelivery
    after them, the result is again an object, and merging again, with the
    same or another locker, is the same as merging once with the last
    locker. *)
Theorem box_order_payload_merge (pf : Platform) (this : Client.t)
    (l1 l2 : LockerId) (delivery : JsObject) (net : Net) :
  NoDup (delivery.*1) ->
  Client.createBoxOrder pf this l1 delivery net
    = Client.createOrder pf this (Client.box_order_payload l1 delivery) net
  /\ NoDup ((Client.box_order_payload l1 delivery).*1)
  /\ (exists added : list string,
        (Client.box_order_payload l1 delivery).*1 = delivery.*1 ++ added
        /\ added ⊆ ["productCodes"; "boxDelivery"])
  /\ Client.box_order_payload l2 (Client.box_order_payload l1 delivery)
       = Client.box_order_payload l2 delivery.
Proof.
  intros Hnd.
  assert (Hcopy : forall (l : LockerId) (o : JsObject),
    NoDup (o.*1) ->
    Client.box_order_payload l o
      = obj_set "boxDelivery" (JObject [("selectedBox", LockerId_value l)])
          (obj_set "productCodes" (JArray [JString "DLVBOX"]) o)).
  { intros l o Ho. unfold Client.box_order_payload. by rewrite obj_spread_copy. }
  assert (Hnd1 : NoDup ((Client.box_order_payload l1 delivery).*1)).
  { rewrite Hcopy by done. by do 2 apply obj_set_NoDup. }
  split_and!; [done | done | |].
  - rewrite Hcopy by done. rewrite !obj_set_keys.
    destruct (decide ("productCodes" ∈ delivery.*1)) as [Hp|Hp].
    + destruct (decide ("boxDelivery" ∈ delivery.*1)) as [Hb|Hb].
      * exists []. rewrite app_nil_r. split; [done | subset_of_added].
      * exists ["boxDelivery"]. split; [done | subset_of_added].
    + destruct (decide ("boxDelivery" ∈ delivery.*1 ++ ["productCodes"]))
        as [Hb|Hb].
      * exists ["productCodes"]. split; [done | subset_of_added].
      * exists ["productCodes"; "boxDelivery"].
        rewrite <- app_assoc. split; [done | subset_of_added].
  - rewrite (Hcopy l2 _ Hnd1), (Hcopy l1 _ Hnd), (Hcopy l2 _ Hnd).
    rewrite (obj_set_id "productCodes").
    + by rewrite obj_set_set.
    + rewrite obj_get_set_ne by done. apply obj_get_set_eq.
Qed.

Lemma box_order_payload_merge_witness :
  Client.box_order_payload (LockerIdString "L2")
    (Client.box_order_payload (LockerIdString "L1") demo_payload)
  = Client.box_order_payload (LockerIdString "L2") demo_payload.
Proof.
  refine (proj2 (proj2 (proj2 (box_order_payload_merge
            (demo_platform (mkResponse 200 "{}")) demo_client
            (LockerIdString "L1") (LockerIdString "L2") demo_payload [] _)))).
  apply (bool_decide_unpack _). vm_compute. exact I.
Defined.

(** ** Sequences of calls *)

(** The requests of a method depend on the platform only through
    [JSON.stringify] and the time zone. *)
Lemma perform_log_rendering (pf pf' : Platform) (this : Client.t)
    (op : Operation) (net : Net) :
  same_rendering pf pf' ->
  (perform pf this op net).2 = (perform pf' this op net).2.
Proof.
  intros [Hjs Htz].
  destruct op; cbn [perform]; rewrite ?parsed_run, ?raw_run;
    try (run_method; rewrite ?Hjs; reflexivity).
  rewrite !bind_run. cbn [snd]. unfold Client.deliveryWindows.
  assert (Hseg : Client.interval_segment pf interval
                 = Client.interval_segment pf' interval).
  { unfold Client.interval_segment. by rewrite Htz. }
  rewrite Hseg. destruct (Client.interval_segment pf' interval); [|reflexivity].
  by run_method.
Qed.

(** X12. Calls made one after the other compose: running a sequence
    followed by another is running the first, then the second on the log
    the first left, with the results in order. What is sent never depends
    on what the server answered before or on [JSON.parse]: two platforms
    that serialize and format dates alike see the same requests. *)
Theorem run_compose (pf : Platform) (this : Client.t)
    (ops1 ops2 : list Operation) (net : Net) :
  run pf this (ops1 ++ ops2) net
    = ((run pf this ops1 net).1
         ++ (run pf this ops2 (run pf this ops1 net).2).1,
       (run pf this ops2 (run pf this ops1 net).2).2)
  /\ (forall pf' : Platform,
        same_rendering pf pf' ->
        (run pf this (ops1 ++ ops2) net).2
          = (run pf' this (ops1 ++ ops2) net).2).
Proof.
  split.
  - revert net. induction ops1 as [|op rest IH]; intros net.
    + cbn [app run]. rewrite ret_run. cbn [fst snd app].
      by destruct (run pf this ops2 net).
    + cbn [app]. rewrite !run_cons. cbn [fst snd]. by rewrite IH.
  - intros pf' Hsame. generalize (ops1 ++ ops2). intros ops. revert net.
    induction ops as [|op rest IH]; intros net; [done|].
    rewrite !run_cons. cbn [snd].
    rewrite (perform_log_rendering pf pf' this op net Hsame). apply IH.
Qed.

Lemma run_compose_witness :
  (run (demo_platform (mkResponse 200 lockers_text)) demo_client
     ([Lockers None] ++ [CancelOrder "42"]) []).2
  = (run (demo_platform (mkResponse 503 "")) demo_client
       ([Lockers None] ++ [CancelOrder "42"]) []).2.
Proof.
  refine (proj2 (run_compose (demo_platform (mkResponse 200 lockers_text))
            demo_client [Lockers None] [CancelOrder "42"] [])
            (demo_platform (mkResponse 503 "")) _).
  split; reflexivity.
Defined.

(** ** Credentials *)

(** The call of an endpoint method without its Authorization header: the
    client is read for the environment alone. *)
Lemma without_authorization_endpoint (this : RESTClient.t)
    (req : RequestData.t) (content_type : string) :
  RequestData.headers req = Some [("Content-Type", content_type)] ->
  plain_entry ("Content-Type", content_type) = true ->
  without_authorization (issued_call this req)
    = mkFetchCall (host_of this +:+ "/" +:+ RequestData.path req)
        (RequestInit.mk (RequestData.body req)
           {[ "Content-Type" := content_type ]}
           (RequestData.method req) (RequestData.signal req)).
Proof.
  intros Hh Hplain. unfold without_authorization.
  rewrite (endpoint_headers this req content_type Hh Hplain).
  rewrite delete_union, delete_singleton_eq, delete_singleton_ne by done.
  by rewrite map_union_empty.
Qed.

Lemma without_authorization_issued (this1 this2 : RESTClient.t)
    (req : RequestData.t) (content_type : string) :
  RequestData.headers req = Some [("Content-Type", content_type)] ->
  plain_entry ("Content-Type", content_type) = true ->
  Config.test (RESTClient.config this1) = Config.test (RESTClient.config this2) ->
  without_authorization (issued_call this1 req)
    = without_authorization (issued_call this2 req).
Proof.
  intros Hh Hplain Htest.
  rewrite !(without_authorization_endpoint _ req content_type Hh Hplain).
  unfold host_of. by rewrite Htest.
Qed.

(** X13. The key and the secret reach the network in the Authorization
    header and nowhere else: two clients for the same environment with
    different credentials send, for the same sequence of calls, requests
    with the same URLs, methods, bodies, signals and other headers. *)
Theorem credentials_only_in_authorization (pf : Platform)
    (cfg1 cfg2 : Config.t) (ops : list Operation) (net1 net2 : Net) :
  Config.test cfg1 = Config.test cfg2 ->
  without_authorization <$> net1 = without_authorization <$> net2 ->
  without_authorization <$> (run pf (RESTClient.new cfg1) ops net1).2
    = without_authorization <$> (run pf (RESTClient.new cfg2) ops net2).2.
Proof.
  intros Htest. revert net1 net2.
  induction ops as [|op rest IH]; intros net1 net2 Hnets; [done|].
  rewrite !run_cons. cbn [snd]. apply IH.
  destruct (perform_shape pf op) as [[e He] | (req & Hh & _ & _ & _ & _ & Hrun)].
  - by rewrite !He.
  - rewrite !Hrun. cbn [snd]. rewrite !fmap_app, Hnets. f_equal. cbn. f_equal.
    by apply (without_authorization_issued _ _ _ _ Hh (media_type_plain op)).
Qed.

Lemma credentials_only_in_authorization_witness :
  without_authorization
    <$> (run (demo_platform (mkResponse 200 "{}"))
           (RESTClient.new (Config.mk "user" "pass" None))
           [GetOrder "42"] []).2
  = without_authorization
      <$> (run (demo_platform (mkResponse 200 "{}"))
             (RESTClient.new (Config.mk "other" "secret" None))
             [GetOrder "42"] []).2.
Proof.
  refine (credentials_only_in_authorization (demo_platform (mkResponse 200 "{}"))
            (Config.mk "user" "pass" None) (Config.mk "other" "secret" None)
            [GetOrder "42"] [] [] _ _); reflexivity.
Defined.

(** X14. [deliveryWindows] throws exactly when it is given a date range
    with an invalid date, and then it throws the [RangeError] of the
    formatter and makes no request; with a number or two valid dates it
    makes one request and returns a promise. *)
Theorem deliveryWindows_throws (pf : Platform) (this : Client.t)
    (postalCode : StringOrNumber) (interval : IntervalArg)
    (countryCode : option string) (net : Net) :
  match interval with
  | Days _ | Between (mkBetween (TimeValue _) (TimeValue _)) =>
      exists (p : Promise JsValue) (call : FetchCall),
        Client.deliveryWindows pf this postalCode interval countryCode net
          = (Normal p, net ++ [call])
  | Between _ =>
      Client.deliveryWindows pf this postalCode interval countryCode net
        = (Throw (ThrownError "RangeError"), net)
  end.
Proof.
  destruct interval as [n | [[t1|] [t2|]]]; try reflexivity;
    unfold Client.deliveryWindows;
    cbn [Client.interval_segment Intl.format from to];
    run_method; by do 2 eexists.
Qed.

(** ** The token *)

(** X15. Whatever the key and the secret hold, line breaks and other
    control characters included, the token is a text of base64 characters
    only, four for every three bytes of key:secret, rounded up. *)
Theorem token_format (cfg : Config.t) :
  string_forall base64_char (RESTClient.auth (RESTClient.new cfg)) = true
  /\ String.length (RESTClient.auth (RESTClient.new cfg))
     = (4 * ((String.length (Config.key cfg) + 1
              + String.length (Config.secret cfg) + 2) / 3))%nat.
Proof.
  split; [apply auth_chars|].
  unfold RESTClient.new. cbn [RESTClient.auth].
  rewrite encode_length, Buffer_from_length, !string_length_app.
  cbn [String.length]. do 2 f_equal. lia.
Qed.

Lemma all_byte_pairs_spec (p : N -> N -> bool) :
  all_byte_pairs p = true ->
  forall a b : N, (a < 256)%N -> (b < 256)%N -> p a b = true.
Proof.
  intros Hall a b Ha Hb. unfold all_byte_pairs in Hall.
  pose proof (all_from_spec _ _ _ Hall (Z.of_N a) ltac:(lia)) as Hrow.
  cbn beta in Hrow.
  pose proof (all_from_spec _ _ _ Hrow (Z.of_N b) ltac:(lia)) as Hcell.
  cbn beta in Hcell. by rewrite !N2Z.id in Hcell.
Qed.

(** The first two sextets give back the first byte, and the low bits of
    the second sextet are the high bits of the second byte. *)
Lemma sextets_first_checked :
  all_byte_pairs (fun a b =>
    let s1 := N.shiftr a 2 in
    let s2 := N.lor (N.shiftl (N.land a 3) 4) (N.shiftr b 4) in
    (a =? N.lor (N.shiftl s1 2) (N.shiftr s2 4))%N
    && (s1 <? 64)%N && (s2 <? 64)%N
    && (N.land s2 15 =? N.shiftr b 4)%N) = true.
Proof. vm_compute. reflexivity. Qed.

(** The last two sextets give back the last byte, and with the low bits of
    the second sextet the middle byte. *)
Lemma sextets_last_checked :
  all_byte_pairs (fun b c =>
    let s3 := N.lor (N.shiftl (N.land b 15) 2) (N.shiftr c 6) in
    let s4 := N.land c 63 in
    (b =? N.lor (N.shiftl (N.shiftr b 4) 4) (N.shiftr s3 2))%N
    && (c =? N.lor (N.shiftl (N.land s3 3) 6) s4)%N
    && (s3 <? 64)%N && (s4 <? 64)%N) = true.
Proof. vm_compute. reflexivity. Qed.

Lemma sextet_checked :
  all_byte_pairs (fun i j =>
    implb ((i <? 64)%N && (j <? 64)%N
           && Ascii.eqb (Base64.sextet i) (Base64.sextet j)) (i =? j)%N
    && implb (i <? 64)%N
         (negb (Ascii.eqb (Base64.sextet i) (Ascii.ascii_of_N 61)))) = true.
Proof. vm_compute. reflexivity. Qed.

Lemma sextet_inj (i j : N) :
  (i < 64)%N -> (j < 64)%N -> Base64.sextet i = Base64.sextet j -> i = j.
Proof.
  intros Hi Hj Heq.
  pose proof (all_byte_pairs_spec _ sextet_checked i j ltac:(lia) ltac:(lia)) as H.
  cbn beta in H. apply andb_true_iff in H as [H _].
  rewrite (proj2 (N.ltb_lt _ _) Hi), (proj2 (N.ltb_lt _ _) Hj) in H.
  rewrite Heq, Ascii.eqb_refl in H. cbn in H. by apply N.eqb_eq.
Qed.

Lemma sextet_not_pad (i : N) :
  (i < 64)%N -> Base64.sextet i <> Ascii.ascii_of_N 61.
Proof.
  intros Hi Heq.
  pose proof (all_byte_pairs_spec _ sextet_checked i i ltac:(lia) ltac:(lia)) as H.
  cbn beta in H. apply andb_true_iff in H as [_ H].
  rewrite (proj2 (N.ltb_lt _ _) Hi), Heq, Ascii.eqb_refl in H. discriminate H.
Qed.

(** Facts about the sextets of two neighbouring bytes, unpacked. *)
Lemma sextets_first (a b : N) :
  (a < 256)%N -> (b < 256)%N ->
  a = N.lor (N.shiftl (N.shiftr a 2) 2)
        (N.shiftr (N.lor (N.shiftl (N.land a 3) 4) (N.shiftr b 4)) 4)
  /\ (N.shiftr a 2 < 64)%N
  /\ (N.lor (N.shiftl (N.land a 3) 4) (N.shiftr b 4) < 64)%N
  /\ N.land (N.lor (N.shiftl (N.land a 3) 4) (N.shiftr b 4)) 15 = N.shiftr b 4.
Proof.
  intros Ha Hb.
  pose proof (all_byte_pairs_spec _ sextets_first_checked a b Ha Hb) as H.
  cbn beta zeta in H.
  rewrite !andb_true_iff, !N.eqb_eq, !N.ltb_lt in H.
  destruct H as (((E1 & E2) & E3) & E4). by split_and!.
Qed.

Lemma sextets_last (b c : N) :
  (b < 256)%N -> (c < 256)%N ->
  b = N.lor (N.shiftl (N.shiftr b 4) 4)
        (N.shiftr (N.lor (N.shiftl (N.land b 15) 2) (N.shiftr c 6)) 2)
  /\ c = N.lor (N.shiftl (N.land (N.lor (N.shiftl (N.land b 15) 2)
                                    (N.shiftr c 6)) 3) 6)
           (N.land c 63)
  /\ (N.lor (N.shiftl (N.land b 15) 2) (N.shiftr c 6) < 64)%N
  /\ (N.land c 63 < 64)%N.
Proof.
  intros Hb Hc.
  pose proof (all_byte_pairs_spec _ sextets_last_checked b c Hb Hc) as H.
  cbn beta zeta in H.
  rewrite !andb_true_iff, !N.eqb_eq, !N.ltb_lt in H.
  destruct H as (((E1 & E2) & E3) & E4). by split_and!.
Qed.

(** Three bytes are determined by their four sextets; two by the first
    three, one by the first two. *)
Lemma sextets_inj (a b c a' b' c' : N) :
  (a < 256)%N -> (b < 256)%N -> (c < 256)%N ->
  (a' < 256)%N -> (b' < 256)%N -> (c' < 256)%N ->
  N.shiftr a 2 = N.shiftr a' 2 ->
  N.lor (N.shiftl (N.land a 3) 4) (N.shiftr b 4)
    = N.lor (N.shiftl (N.land a' 3) 4) (N.shiftr b' 4) ->
  (a = a'
   /\ (N.lor (N.shiftl (N.land b 15) 2) (N.shiftr c 6)
         = N.lor (N.shiftl (N.land b' 15) 2) (N.shiftr c' 6) ->
       b = b' /\ (N.land c 63 = N.land c' 63 -> c = c'))).
Proof.
  intros Ha Hb Hc Ha' Hb' Hc' H1 H2.
  destruct (sextets_first a b Ha Hb) as (Ea & _ & _ & Eb4).
  destruct (sextets_first a' b' Ha' Hb') as (Ea' & _ & _ & Eb4').
  destruct (sextets_last b c Hb Hc) as (Eb & Ec & _ & _).
  destruct (sextets_last b' c' Hb' Hc') as (Eb' & Ec' & _ & _).
  split; [congruence|]. intros H3.
  assert (Hhigh : N.shiftr b 4 = N.shiftr b' 4) by congruence.
  split; [congruence|]. intros H4. congruence.
Qed.

Lemma pad_sextet_bounds (a : N) :
  (a < 256)%N ->
  (N.shiftl (N.land a 3) 4 < 64)%N /\ (N.shiftl (N.land a 15) 2 < 64)%N
  /\ (N.land a 63 < 64)%N.
Proof.
  intros Ha.
  destruct (sextets_first a 0) as (_ & _ & B2 & _); [done..|].
  destruct (sextets_last a 0) as (_ & _ & B3 & _); [done..|].
  destruct (sextets_last 0 a) as (_ & _ & _ & B4); [done..|].
  cbn in B2, B3. by rewrite N.lor_0_r in B2, B3.
Qed.

Ltac sextet_eqs :=
  repeat match goal with
  | H : String _ _ = String _ _ |- _ => injection H as ? ?
  end.

(** A sextet character on one side and the padding sign on the other. *)
Ltac pad_clash :=
  match goal with
  | H : Base64.sextet ?i = ?c |- _ =>
      lazymatch c with
      | Base64.sextet _ => fail
      | _ => exfalso; apply (sextet_not_pad i); [|exact H]
      end
  | H : ?c = Base64.sextet ?i |- _ =>
      lazymatch c with
      | Base64.sextet _ => fail
      | _ => exfalso; apply (sextet_not_pad i); [|symmetry; exact H]
      end
  end;
  first [ by apply pad_sextet_bounds | by apply sextets_last ].

(** Base64 text determines the bytes. *)
Lemma encode_bytes_inj (bs1 bs2 : list N) :
  Forall (fun x => (x < 256)%N) bs1 -> Forall (fun x => (x < 256)%N) bs2 ->
  Base64.encode_bytes bs1 = Base64.encode_bytes bs2 -> bs1 = bs2.
Proof.
  revert bs2.
  induction bs1 as [| a | a b | a b c rest IH] using list_ind3;
    intros [|a' [|b' [|c' rest']]] Hb1 Hb2 Heq;
    cbn [Base64.encode_bytes] in Heq;
    repeat match goal with
    | H : Forall _ (_ :: _) |- _ => apply Forall_cons in H as [? H]
    end;
    try discriminate Heq; try reflexivity;
    sextet_eqs; try pad_clash.
  - (* one byte against one byte *)
    destruct (sextets_first a 0) as (_ & B1 & B2 & _); [done..|].
    destruct (sextets_first a' 0) as (_ & B1' & B2' & _); [done..|].
    cbn in B2, B2'. rewrite N.lor_0_r in B2, B2'.
    f_equal. apply (sextets_inj a 0 0 a' 0 0); try done.
    + by apply sextet_inj.
    + cbn. rewrite !N.lor_0_r. by apply sextet_inj.
  - (* two bytes against two bytes *)
    destruct (sextets_first a b) as (_ & B1 & B2 & _); [done..|].
    destruct (sextets_first a' b') as (_ & B1' & B2' & _); [done..|].
    destruct (sextets_last b 0) as (_ & _ & B3 & _); [done..|].
    destruct (sextets_last b' 0) as (_ & _ & B3' & _); [done..|].
    cbn in B3, B3'. rewrite N.lor_0_r in B3, B3'.
    destruct (sextets_inj a b 0 a' b' 0) as [-> Hb]; try done.
    + by apply sextet_inj.
    + by apply sextet_inj.
    + destruct Hb as [-> _]; [|done].
      cbn. rewrite !N.lor_0_r. by apply sextet_inj.
  - (* a full group against a full group *)
    destruct (sextets_first a b) as (_ & B1 & B2 & _); [done..|].
    destruct (sextets_first a' b') as (_ & B1' & B2' & _); [done..|].
    destruct (sextets_last b c) as (_ & _ & B3 & B4); [done..|].
    destruct (sextets_last b' c') as (_ & _ & B3' & B4'); [done..|].
    destruct (sextets_inj a b c a' b' c') as [-> Hb]; try done.
    + by apply sextet_inj.
    + by apply sextet_inj.
    + destruct Hb as [-> Hc]; [by apply sextet_inj|].
      rewrite Hc by by apply sextet_inj.
      do 3 f_equal. by apply IH.
Qed.

Lemma list_ascii_of_string_inj (s1 s2 : string) :
  String.list_ascii_of_string s1 = String.list_ascii_of_string s2 -> s1 = s2.
Proof.
  intros Heq.
  rewrite <- (String.string_of_list_ascii_of_string s1),
          <- (String.string_of_list_ascii_of_string s2). by rewrite Heq.
Qed.

Lemma string_bytes_inj (s1 s2 : string) :
  map Ascii.N_of_ascii (String.list_ascii_of_string s1)
    = map Ascii.N_of_ascii (String.list_ascii_of_string s2) ->
  s1 = s2.
Proof.
  intros Heq. apply list_ascii_of_string_inj.
  revert Heq. generalize (String.list_ascii_of_string s2).
  induction (String.list_ascii_of_string s1) as [|c l IH];
    intros [|c' l'] Heq; try discriminate Heq; [done|].
  injection Heq as Hc Hl. f_equal; [|by apply IH].
  rewrite <- (Ascii.ascii_N_embedding c), <- (Ascii.ascii_N_embedding c').
  by rewrite Hc.
Qed.

Lemma string_bytes_bounded (s : string) :
  Forall (fun x => (x < 256)%N)
    (map Ascii.N_of_ascii (String.list_ascii_of_string s)).
Proof.
  induction s as [|c s IH]; cbn; constructor; [apply Ascii.N_ascii_bounded | done].
Qed.

(** Base64 text determines the string. *)
Lemma encode_inj (s1 s2 : string) :
  Base64.encode s1 = Base64.encode s2 -> s1 = s2.
Proof.
  intros Heq. apply string_bytes_inj.
  apply encode_bytes_inj; [apply string_bytes_bounded.. | done].
Qed.

(** A text is cut at its first colon in one way only. *)
Lemma colon_split (k1 k2 s1 s2 : string) :
  colon_free k1 = true -> colon_free k2 = true ->
  k1 +:+ ":" +:+ s1 = k2 +:+ ":" +:+ s2 -> k1 = k2 /\ s1 = s2.
Proof.
  revert k2. induction k1 as [|c k1 IH]; intros [|c' k2] H1 H2 Heq;
    rewrite ?string_app_cons, ?string_app_nil in Heq.
  - by injection Heq as ->.
  - exfalso. injection Heq as Hc _. cbn [colon_free] in H2.
    apply andb_true_iff in H2 as [H2 _]. subst c'. discriminate H2.
  - exfalso. injection Heq as Hc _. cbn [colon_free] in H1.
    apply andb_true_iff in H1 as [H1 _]. subst c. discriminate H1.
  - injection Heq as -> Heq. cbn [colon_free] in H1, H2.
    apply andb_true_iff in H1 as [_ H1]. apply andb_true_iff in H2 as [_ H2].
    destruct (IH k2 H1 H2 Heq) as [-> ->]. done.
Qed.

(** X16. For keys that hold no colon, and credentials that hold no
    unpaired surrogate, the token tells the credentials apart: two
    configurations with the same token have the same key and the same
    secret. A colon in the key is not told from the separator: moving the
    text after it from the key to the secret gives the same token. *)
Theorem token_determines_credentials (cfg1 cfg2 : Config.t) :
  colon_free (Config.key cfg1) = true ->
  colon_free (Config.key cfg2) = true ->
  well_formed_text (Config.key cfg1 +:+ ":" +:+ Config.secret cfg1) ->
  well_formed_text (Config.key cfg2 +:+ ":" +:+ Config.secret cfg2) ->
  (RESTClient.auth (RESTClient.new cfg1) = RESTClient.auth (RESTClient.new cfg2)
     <-> Config.key cfg1 = Config.key cfg2
         /\ Config.secret cfg1 = Config.secret cfg2)
  /\ (forall (tail : string) (test : option bool),
        RESTClient.auth
          (RESTClient.new
             (Config.mk (Config.key cfg1 +:+ ":" +:+ tail)
                (Config.secret cfg1) test))
        = RESTClient.auth
            (RESTClient.new
               (Config.mk (Config.key cfg1)
                  (tail +:+ ":" +:+ Config.secret cfg1) test))).
Proof.
  intros H1 H2 Hw1 Hw2. split; [split|].
  - intros Heq. unfold RESTClient.new in Heq. cbn [RESTClient.auth] in Heq.
    apply encode_inj in Heq. unfold well_formed_text in Hw1, Hw2.
    rewrite Hw1, Hw2 in Heq. by apply colon_split.
  - intros [Hk Hs]. unfold RESTClient.new. cbn [RESTClient.auth].
    by rewrite Hk, Hs.
  - intros tail test. unfold RESTClient.new. cbn.
    by rewrite string_app_assoc.
Qed.

Lemma token_determines_credentials_witness :
  RESTClient.auth (RESTClient.new (Config.mk "user" "pass" None))
    = RESTClient.auth (RESTClient.new (Config.mk "user" "pass" (Some true)))
  <-> "user" = "user" /\ "pass" = "pass".
Proof.
  refine (proj1 (token_determines_credentials (Config.mk "user" "pass" None)
            (Config.mk "user" "pass" (Some true)) _ _ _ _)); reflexivity.
Defined.

(** Without that, not: two keys that are each one unpaired surrogate,
    U+D800 and U+D801, have the same token. *)
Example token_of_unpaired_surrogates :
  String (Ascii.ascii_of_N 237) (String (Ascii.ascii_of_N 160)
    (String (Ascii.ascii_of_N 128) ""))
  <> String (Ascii.ascii_of_N 237) (String (Ascii.ascii_of_N 160)
       (String (Ascii.ascii_of_N 129) ""))
  /\ RESTClient.auth
       (RESTClient.new
          (Config.mk (String (Ascii.ascii_of_N 237) (String (Ascii.ascii_of_N 160)
                        (String (Ascii.ascii_of_N 128) ""))) "s" None))
     = RESTClient.auth
         (RESTClient.new
            (Config.mk (String (Ascii.ascii_of_N 237) (String (Ascii.ascii_of_N 160)
                          (String (Ascii.ascii_of_N 129) ""))) "s" None)).
Proof. split; [discriminate | reflexivity]. Qed.

(** ** The request of each method *)

(** X17. The resource and the body of every method: the URL is the host of
    the client, a slash and the path below, with the arguments put in as
    they are (a number as JavaScript writes it, a date as the formatter
    writes it) and SE for an absent country code; a creation or update sends
    the JSON text of its payload as given, with nothing checked, added or
    removed (but for [createBoxOrder]), and the other methods send no
    body. *)
Theorem endpoint_requests (pf : Platform) (this : Client.t) (op : Operation)
    (net : Net) (call : FetchCall) :
  (perform pf this op net).2 = net ++ [call] ->
  exists path : string,
    fetch_url call = host_of this +:+ "/" +:+ path
    /\ match op with
       | Warehouses =>
           path = "users/collection-points"
           /\ RequestInit.body (fetch_init call) = None
       | WarehouseInRegion postalCode countryCode =>
           path = "postalcodes/validate/" +:+ default "SE" countryCode
                    +:+ "/" +:+ postal_text postalCode
           /\ RequestInit.body (fetch_init call) = None
       | PostalCodes countryCode =>
           path = "postalcodes/" +:+ default "SE" countryCode
           /\ RequestInit.body (fetch_init call) = None
       | DeliveryWindows postalCode interval countryCode =>
           (exists segment : string,
              match interval with
              | Days x => segment = number_text x
              | Between dates =>
                  exists a b : string,
                    Intl.format (LocalTZA pf) (from dates) = Normal a
                    /\ Intl.format (LocalTZA pf) (to dates) = Normal b
                    /\ segment = a +:+ "/" +:+ b
              end
              /\ path = "intervals/" +:+ default "SE" countryCode +:+ "/"
                          +:+ postal_text postalCode +:+ "/" +:+ segment)
           /\ RequestInit.body (fetch_init call) = None
       | GetOrder orderId =>
           path = "multiple/orders/" +:+ orderId
           /\ RequestInit.body (fetch_init call) = None
       | CreateOrder order =>
           path = "multiple/orders"
           /\ RequestInit.body (fetch_init call)
                = Some (JSON_stringify pf (JObject order))
       | UpdateDeliveryConsumerInfo orderId info =>
           path = "multiple/orders/" +:+ orderId
           /\ RequestInit.body (fetch_init call)
                = Some (JSON_stringify pf (JObject info))
       | CancelOrder orderId =>
           path = "multiple/orders/" +:+ orderId
           /\ RequestInit.body (fetch_init call) = None
       | AddParcels orderId parcels =>
           path = "multiple/orders/" +:+ orderId +:+ "/parcels"
           /\ RequestInit.body (fetch_init call)
                = Some (JSON_stringify pf (JArray (map JObject parcels)))
       | RemoveParcel orderId parcelId =>
           path = "multiple/orders/" +:+ orderId +:+ "/parcels/"
                    +:+ number_text parcelId
           /\ RequestInit.body (fetch_init call) = None
       | OrderTracker orderId =>
           path = "multiple/orders/" +:+ orderId +:+ "/tracking-url"
           /\ RequestInit.body (fetch_init call) = None
       | ParcelTracker parcelId =>
           path = "parcels/" +:+ parcelId +:+ "/tracking-url"
           /\ RequestInit.body (fetch_init call) = None
       | CreatePickup pickup =>
           path = "returns"
           /\ RequestInit.body (fetch_init call)
                = Some (JSON_stringify pf (JObject pickup))
       | CreateDropOff dropOff =>
           path = "box/return"
           /\ RequestInit.body (fetch_init call)
                = Some (JSON_stringify pf (JObject dropOff))
       | GetLocker lockerId =>
           path = "boxes/" +:+ lockerId
           /\ RequestInit.body (fetch_init call) = None
       | Lockers countryCode =>
           path = "boxes/all/" +:+ default "SE" countryCode
           /\ RequestInit.body (fetch_init call) = None
       | LockersInRegion postalCode countryCode =>
           path = "boxes/postalcodes/validate/" +:+ default "SE" countryCode
                    +:+ "/" +:+ postalCode
           /\ RequestInit.body (fetch_init call) = None
       | CreateBoxOrder lockerId delivery =>
           path = "multiple/orders"
           /\ RequestInit.body (fetch_init call)
                = Some (JSON_stringify pf
                          (JObject (Client.box_order_payload lockerId delivery)))
       end.
Proof.
  intros Hcall.
  destruct op; cbn [perform] in Hcall; rewrite ?parsed_run, ?raw_run in Hcall;
    try (revert Hcall; run_method; intros Hcall;
         apply app_inv_head in Hcall; injection Hcall as <-;
         eexists; split; [reflexivity | split; reflexivity]).
  rewrite bind_run in Hcall. cbn [snd] in Hcall.
  unfold Client.deliveryWindows in Hcall.
  destruct (Client.interval_segment pf interval) as [segment|e] eqn:Hseg.
  - revert Hcall; run_method; intros Hcall.
    apply app_inv_head in Hcall; injection Hcall as <-.
    eexists. split; [reflexivity|]. split; [|reflexivity].
    exists segment. split; [|reflexivity].
    destruct interval as [x | dates]; cbn [Client.interval_segment] in Hseg.
    + by injection Hseg as <-.
    + destruct (Intl.format (LocalTZA pf) (from dates)) as [a|]; [|discriminate].
      destruct (Intl.format (LocalTZA pf) (to dates)) as [b|]; [|discriminate].
      injection Hseg as <-. by exists a, b.
  - cbn in Hcall. rewrite <- (app_nil_r net) in Hcall at 1.
    by apply app_inv_head in Hcall.
Qed.

Lemma endpoint_requests_witness :
  exists path : string,
    fetch_url (issued_call demo_client
                 (RequestData.mk None None
                    (Some [("Content-Type",
                               "application/vnd.budbee.parcels-v1+json")])
                    "GET" "parcels/7/tracking-url" None))
      = host_of demo_client +:+ "/" +:+ path
    /\ path = "parcels/" +:+ "7" +:+ "/tracking-url"
    /\ RequestInit.body
         (fetch_init (issued_call demo_client
                        (RequestData.mk None None
                           (Some [("Content-Type",
                                      "application/vnd.budbee.parcels-v1+json")])
                           "GET" "parcels/7/tracking-url" None))) = None.
Proof.
  refine (endpoint_requests (demo_platform (mkResponse 200 url_text))
            demo_client (ParcelTracker "7") [] _ _).
  reflexivity.
Defined.
